(** * quiC2: the signalling layer, its mailbox store and its transfer codec

    A shallow embedding of the Python sources
      - [tools/constants.py], [tools/shared_functionality.py]
      - [c2_dealer.py]            (class [QuiC2Database])
      - [server/server_comms.py]  ([respond_to_sdr])
      - [client/cl_functions.py]  ([stock_command], [custom_command])
      - [c2_client.py], [c2_server.py] (the two [quic_event_received])
    followed by the properties of the specification that concern them.

    Conventions of the embedding.
      - A Python [str] is a Rocq [string] read as a sequence of code points
        below 256; [strip], [split], [lower] and [int] are exact on that
        range.  The UTF-8 codec is a parameter of the protocol handlers.
      - A Python [bytes] is a [list byte].
      - A Python [float] is a binary64 [float].
      - A call that may raise returns a [result]; a method of an object with
        state takes the state and returns the new one.
      - Logging and [print] have no effect on any modelled state and are
        left out; [time.sleep] likewise. *)

From Stdlib Require Import ZArith List String Ascii Bool Lia Arith.
From Stdlib Require Import DecimalString DecimalZ Floats.
From Equations Require Import Equations.
From Equations.Prop Require Import Logic.
Import ListNotations.

Open Scope string_scope.
Open Scope list_scope.
Open Scope Z_scope.

(* ===================================================================== *)
(** ** The fragment of the Python runtime the sources rely on *)
(* ===================================================================== *)

Module Py.

Definition bytes := list Byte.byte.

(** The exceptions that the modelled code can meet. *)
Inductive exn : Type :=
| OperationalError            (* sqlite3.OperationalError *)
| ValueError
| TypeError
| IndexError
| NotImplementedError
| FileNotFoundError
| UnicodeDecodeError
| KeyboardInterrupt
| CalledProcessError (returncode : Z) (stderr : bytes).

Inductive result (A : Type) : Type :=
| Ok (a : A)
| Raise (e : exn).
Arguments Ok {A} a.
Arguments Raise {A} e.

Definition bind {A B : Type} (m : result A) (k : A -> result B) : result B :=
  match m with
  | Ok a => k a
  | Raise e => Raise e
  end.

(** [try: m  except <handled>: h]. *)
Definition try_except {A : Type} (m : result A) (h : exn -> option (result A))
  : result A :=
  match m with
  | Ok a => Ok a
  | Raise e => match h e with Some r => r | None => Raise e end
  end.

(** *** [str] methods *)

(** [str.isspace] on one code point below 256. *)
Definition isspace (c : ascii) : bool :=
  let n := nat_of_ascii c in
  ((9 <=? n) && (n <=? 13) || (28 <=? n) && (n <=? 32)
   || (n =? 133) || (n =? 160))%nat.

(** Dropping the characters that [space] accepts from the left end, and
    from the right end. *)
Fixpoint lstrip_by (space : ascii -> bool) (s : string) : string :=
  match s with
  | "" => ""
  | String c t => if space c then lstrip_by space t else s
  end.

Fixpoint rstrip_by (space : ascii -> bool) (s : string) : string :=
  match s with
  | "" => ""
  | String c t =>
      match rstrip_by space t with
      | "" => if space c then "" else String c ""
      | r => String c r
      end
  end.

Abbreviation lstrip := (lstrip_by isspace).
Abbreviation rstrip := (rstrip_by isspace).

(** [s.strip()] *)
Definition strip (s : string) : string := rstrip (lstrip s).

(** [s.split(sep)]: the fragments between the non-overlapping occurrences
    of [sep], found from the left.  [skip] counts the characters of an
    occurrence that are still to be passed over, [cur] is the fragment
    being read. *)
Fixpoint split_from (sep : string) (skip : nat) (cur s : string)
  : list string :=
  match s with
  | "" => [cur]
  | String c t =>
      match skip with
      | S k => split_from sep k cur t
      | O =>
          if prefix sep s
          then cur :: split_from sep (String.length sep - 1) "" t
          else split_from sep 0 (cur ++ String c "")%string t
      end
  end.

Definition split (sep s : string) : result (list string) :=
  match sep with
  | "" => Raise ValueError            (* empty separator *)
  | _ => Ok (split_from sep 0 "" s)
  end.

(** [sep.join(items)] *)
Fixpoint join (sep : string) (items : list string) : string :=
  match items with
  | [] => ""
  | [x] => x
  | x :: rest => (x ++ sep ++ join sep rest)%string
  end.

(** [str.lower] on one code point below 256. *)
Definition lower_char (c : ascii) : ascii :=
  let n := nat_of_ascii c in
  if ((65 <=? n) && (n <=? 90)
      || (192 <=? n) && (n <=? 222) && negb (n =? 215))%nat
  then ascii_of_nat (n + 32)
  else c.

Fixpoint lower (s : string) : string :=
  match s with
  | "" => ""
  | String c t => String (lower_char c) (lower t)
  end.

(** [s[i]] *)
Definition getitem (s : string) (i : nat) : result string :=
  match String.get i s with
  | Some c => Ok (String c "")
  | None => Raise IndexError
  end.

(** *** [str(n)] and [int(s)] for integers *)

Definition str (n : Z) : string := NilZero.string_of_int (Z.to_int n).

Definition is_digit (c : ascii) : bool :=
  let n := nat_of_ascii c in ((48 <=? n) && (n <=? 57))%nat.

(** The body of an integer literal: digits, single underscores allowed
    between two digits. *)
Fixpoint digits_ok (after_digit : bool) (s : string) : bool :=
  match s with
  | "" => after_digit
  | String c t =>
      if is_digit c then digits_ok true t
      else if Ascii.eqb c "_" then after_digit && digits_ok false t
      else false
  end.

Fixpoint drop_underscores (s : string) : string :=
  match s with
  | "" => ""
  | String c t =>
      if Ascii.eqb c "_" then drop_underscores t
      else String c (drop_underscores t)
  end.

(** The whitespace that [int] passes over around a literal: the C
    [isspace] set below 128, the Unicode spaces above. *)
Definition int_isspace (c : ascii) : bool :=
  let n := nat_of_ascii c in
  ((9 <=? n) && (n <=? 13) || (n =? 32) || (n =? 133) || (n =? 160))%nat.

(** [int(s)] in base ten: surrounding whitespace, an optional sign, then
    the digits; anything else is a [ValueError]. *)
Definition int (s : string) : result Z :=
  let t := rstrip_by int_isspace (lstrip_by int_isspace s) in
  let '(negative, body) :=
    match t with
    | String c r =>
        if Ascii.eqb c "-" then (true, r)
        else if Ascii.eqb c "+" then (false, r)
        else (false, t)
    | "" => (false, t)
    end in
  if digits_ok false body then
    match NilEmpty.uint_of_string (drop_underscores body) with
    | Some u => Ok (if negative then - Z.of_uint u else Z.of_uint u)
    | None => Raise ValueError
    end
  else Raise ValueError.

End Py.

Declare Scope py_scope.
Delimit Scope py_scope with py.
Notation "x <- m ;; k" := (Py.bind m (fun x => k))
  (at level 100, m at next level, right associativity) : py_scope.
Notation "' p <- m ;; k" := (Py.bind m (fun p => k))
  (at level 100, p pattern, m at next level, right associativity) : py_scope.
Open Scope py_scope.

(* ===================================================================== *)
(** ** tools/constants.py *)
(* ===================================================================== *)

Module Constants.

Definition DEFAULT_MAX_DATA : Z := 1048576.
Definition MAX_VLIE_INT : Z := 107374182000.
Definition DELIMITER : string := "***".
Definition MAX_BYTES : nat := 1230.

Inductive Actions : Type :=
| CUSTOM
| WHOAMI | HOSTNAME | PWD | LS | IPCONFIG
| NOT_A_VALID_INTEGER | NO_RESPONSE_NEEDED | FILE_NOT_FOUND
| CLIENT_HELLO | CLIENT_RESPONSE | CLIENT_FAIL | CLIENT_KILL
| CLIENT_FILE_SEND
| SERVER_SEES_HELLO | SERVER_SEES_RESPONSE | SERVER_FILE_SEND
| SERVER_FILE_RECV.

(** [item.value] *)
Definition value (a : Actions) : Z :=
  match a with
  | CUSTOM => 1153433
  | WHOAMI => 2097152
  | HOSTNAME => 2202009
  | PWD => 2306867
  | LS => 2411724
  | IPCONFIG => 2516582
  | NOT_A_VALID_INTEGER => 9437184
  | NO_RESPONSE_NEEDED => 9542041
  | FILE_NOT_FOUND => 9646899
  | CLIENT_HELLO => 10485760
  | CLIENT_RESPONSE => 10590617
  | CLIENT_FAIL => 10695475
  | CLIENT_KILL => 10800332
  | CLIENT_FILE_SEND => 10905190
  | SERVER_SEES_HELLO => 11534336
  | SERVER_SEES_RESPONSE => 11639193
  | SERVER_FILE_SEND => 11744051
  | SERVER_FILE_RECV => 11848908
  end.

(** [item.name] *)
Definition name (a : Actions) : string :=
  match a with
  | CUSTOM => "CUSTOM"
  | WHOAMI => "WHOAMI"
  | HOSTNAME => "HOSTNAME"
  | PWD => "PWD"
  | LS => "LS"
  | IPCONFIG => "IPCONFIG"
  | NOT_A_VALID_INTEGER => "NOT_A_VALID_INTEGER"
  | NO_RESPONSE_NEEDED => "NO_RESPONSE_NEEDED"
  | FILE_NOT_FOUND => "FILE_NOT_FOUND"
  | CLIENT_HELLO => "CLIENT_HELLO"
  | CLIENT_RESPONSE => "CLIENT_RESPONSE"
  | CLIENT_FAIL => "CLIENT_FAIL"
  | CLIENT_KILL => "CLIENT_KILL"
  | CLIENT_FILE_SEND => "CLIENT_FILE_SEND"
  | SERVER_SEES_HELLO => "SERVER_SEES_HELLO"
  | SERVER_SEES_RESPONSE => "SERVER_SEES_RESPONSE"
  | SERVER_FILE_SEND => "SERVER_FILE_SEND"
  | SERVER_FILE_RECV => "SERVER_FILE_RECV"
  end.

(** The members in definition order, which is the order [for item in
    Actions] visits them. *)
Definition members : list Actions :=
  [ CUSTOM; WHOAMI; HOSTNAME; PWD; LS; IPCONFIG;
    NOT_A_VALID_INTEGER; NO_RESPONSE_NEEDED; FILE_NOT_FOUND;
    CLIENT_HELLO; CLIENT_RESPONSE; CLIENT_FAIL; CLIENT_KILL;
    CLIENT_FILE_SEND;
    SERVER_SEES_HELLO; SERVER_SEES_RESPONSE; SERVER_FILE_SEND;
    SERVER_FILE_RECV ].

Definition Actions_eqb (a b : Actions) : bool := value a =? value b.

End Constants.

(* ===================================================================== *)
(** ** tools/shared_functionality.py *)
(* ===================================================================== *)

Module SharedFunctionality.
Import Constants.

(** The [for item in Actions] loop of [int_to_enum], over the members that
    are still to be visited. *)
Fixpoint int_to_enum_from (items : list Actions) (input : Z) : Actions :=
  match items with
  | [] => NOT_A_VALID_INTEGER
  | item :: rest =>
      if input =? value item then item else int_to_enum_from rest input
  end.

Definition int_to_enum (input : Z) : Actions :=
  int_to_enum_from members input.

End SharedFunctionality.

(* ===================================================================== *)
(** ** c2_dealer.py: class QuiC2Database *)
(* ===================================================================== *)

Module Dealer.
Import Py Constants.

(** A table of the SQLite file: its rows in insertion order (the order a
    full scan returns them in), or [None] when the table is not there, in
    which case every statement on it raises [sqlite3.OperationalError].
    The first column is always [stream_id], stored as text. *)
Definition table (A : Type) : Type := option (list (string * A)).

Record QuiC2Database : Type := mkDB {
  alive_clients : table float;     (* alive_clients(stream_id, time)  *)
  cmd_pool      : table string;    (* cmd_pool(stream_id, cmd)        *)
  files_send    : table string;    (* files_send(stream_id, filename) *)
  files_recv    : table string     (* files_recv(stream_id, filename) *)
}.

Definition set_alive_clients (t : table float) (db : QuiC2Database) :=
  mkDB t (cmd_pool db) (files_send db) (files_recv db).
Definition set_cmd_pool (t : table string) (db : QuiC2Database) :=
  mkDB (alive_clients db) t (files_send db) (files_recv db).
Definition set_files_send (t : table string) (db : QuiC2Database) :=
  mkDB (alive_clients db) (cmd_pool db) t (files_recv db).
Definition set_files_recv (t : table string) (db : QuiC2Database) :=
  mkDB (alive_clients db) (cmd_pool db) (files_send db) t.

(** [create table t(...)], the [OperationalError] of an existing table
    being passed over. *)
Definition create_table {A : Type} (t : table A) : table A :=
  match t with
  | Some rows => Some rows
  | None => Some []
  end.

(** [__init__]: connect to the file and create the four tables that are
    not there yet. *)
Definition init (file : QuiC2Database) : QuiC2Database :=
  mkDB (create_table (alive_clients file)) (create_table (cmd_pool file))
       (create_table (files_send file)) (create_table (files_recv file)).

(** [select ... where stream_id = "key"] and [delete ... where stream_id =
    "key"] on the rows of a table. *)
Definition select_where {A : Type} (key : string) (rows : list (string * A))
  : list (string * A) :=
  filter (fun row => String.eqb (fst row) key) rows.

Definition delete_where {A : Type} (key : string) (rows : list (string * A))
  : list (string * A) :=
  filter (fun row => negb (String.eqb (fst row) key)) rows.

(** [insert into t(stream_id, x) values (?, ?)] *)
Definition insert_row {A : Type} (row : string * A) (t : table A)
  : result (table A) :=
  match t with
  | Some rows => Ok (Some (rows ++ [row]))
  | None => Raise OperationalError
  end.

Definition sel_all_alive (db : QuiC2Database) : list string * bool :=
  match alive_clients db with
  | Some rows => (map (fun row => fst row) rows, false)
  | None => ([], true)
  end.

(** The membership loop of [insert_new_stream_id]:
    [for client in clients: if stream_id == int(client): return False]. *)
Fixpoint stream_id_seen (stream_id : Z) (clients : list string)
  : result bool :=
  match clients with
  | [] => Ok false
  | client :: rest =>
      n <- int client ;;
      if stream_id =? n then Ok true else stream_id_seen stream_id rest
  end.

(** [now] is the reading of [time.time()]. *)
Definition insert_new_stream_id (now : float) (stream_id : Z)
  (db : QuiC2Database) : result (QuiC2Database * bool) :=
  let '(clients, _) := sel_all_alive db in
  seen <- stream_id_seen stream_id clients ;;
  if seen then Ok (db, false)
  else
    t <- insert_row (str stream_id, now) (alive_clients db) ;;
    Ok (set_alive_clients t db, true).

Definition insert_new_cmd (stream_id : Z) (cmd : string)
  (db : QuiC2Database) : result QuiC2Database :=
  t <- insert_row (str stream_id, cmd) (cmd_pool db) ;;
  Ok (set_cmd_pool t db).

Definition insert_new_file_send (stream_id : Z) (filename : string)
  (db : QuiC2Database) : result QuiC2Database :=
  t <- insert_row (str stream_id, filename) (files_send db) ;;
  Ok (set_files_send t db).

Definition insert_new_file_recv (stream_id : Z) (filename : string)
  (db : QuiC2Database) : result QuiC2Database :=
  t <- insert_row (str stream_id, filename) (files_recv db) ;;
  Ok (set_files_recv t db).

Definition sel_and_del_cmd (stream_id : Z) (db : QuiC2Database)
  : QuiC2Database * (list string * bool) :=
  match cmd_pool db with
  | Some rows =>
      let return_list := map snd (select_where (str stream_id) rows) in
      (set_cmd_pool (Some (delete_where (str stream_id) rows)) db,
       (return_list, false))
  | None => (db, ([], true))
  end.

(** [filename = ''; for row in rows: filename = row[1]; break] *)
Definition first_filename (rows : list (string * string)) : string :=
  match rows with
  | [] => ""
  | row :: _ => snd row
  end.

Definition sel_and_del_file_send (stream_id : Z) (db : QuiC2Database)
  : QuiC2Database * (string * bool) :=
  match files_send db with
  | Some rows =>
      let filename := first_filename (select_where (str stream_id) rows) in
      (set_files_send (Some (delete_where (str stream_id) rows)) db,
       (filename, false))
  | None => (db, ("", true))
  end.

Definition sel_and_del_file_recv (stream_id : Z) (db : QuiC2Database)
  : QuiC2Database * (string * bool) :=
  match files_recv db with
  | Some rows =>
      let filename := first_filename (select_where (str stream_id) rows) in
      (set_files_recv (Some (delete_where (str stream_id) rows)) db,
       (filename, false))
  | None => (db, ("", true))
  end.

(** [del_stream_id] formats its argument with [str()]; [key] is that
    text.  [clean_stagnant] calls it with a [str], which [str()] leaves as
    it is. *)
Definition del_stream_id_key (key : string) (db : QuiC2Database)
  : QuiC2Database * bool :=
  match alive_clients db with
  | Some rows => (set_alive_clients (Some (delete_where key rows)) db, true)
  | None => (db, false)
  end.

Definition del_stream_id (stream_id : Z) (db : QuiC2Database)
  : QuiC2Database * bool :=
  del_stream_id_key (str stream_id) db.

(** [time.time() - client[1]] where [client[1]] is a [str]: neither
    [float.__sub__] nor [str.__rsub__] takes the operands. *)
Definition float_sub_str (x : float) (s : string) : result float :=
  Raise TypeError.

(** The [for client in clients] loop of [clean_stagnant].  The elements of
    [clients] are what [sel_all_alive] returns: the [stream_id] texts. *)
Fixpoint clean_stagnant_loop (now : float) (clients : list string)
  (removed : list string) (db : QuiC2Database)
  : result (QuiC2Database * list string) :=
  match clients with
  | [] => Ok (db, removed)
  | client :: rest =>
      last_seen <- getitem client 1 ;;
      age <- float_sub_str now last_seen ;;
      if PrimFloat.ltb 60 age then
        id <- getitem client 0 ;;
        let removed := removed ++ [id] in
        let '(db, _) := del_stream_id_key id db in
        clean_stagnant_loop now rest removed db
      else clean_stagnant_loop now rest removed db
  end.

Definition clean_stagnant (now : float) (db : QuiC2Database)
  : result (QuiC2Database * (list string * bool)) :=
  let '(clients, error) := sel_all_alive db in
  if negb error && negb (Nat.eqb (List.length clients) 0) then
    '(db, removed) <- clean_stagnant_loop now clients [] db ;;
    Ok (db, (removed, true))
  else Ok (db, ([], false)).

(** [_clear], without the [vacuum] that changes no row. *)
Definition clear (db : QuiC2Database) : result QuiC2Database :=
  match alive_clients db, cmd_pool db, files_send db, files_recv db with
  | Some _, Some _, Some _, Some _ => Ok (mkDB (Some []) (Some []) (Some []) (Some []))
  | _, _, _, _ => Raise OperationalError
  end.

End Dealer.

(* ===================================================================== *)
(** ** server/server_comms.py *)
(* ===================================================================== *)

Module ServerComms.
Import Py Constants Dealer.

Definition respond_to_sdr (now : float) (db_con : QuiC2Database)
  (stream_id : Z) (value : Actions)
  : result (QuiC2Database * (Actions * list string)) :=
  '(db_con, added) <- insert_new_stream_id now stream_id db_con ;;
  match value with
  | CLIENT_HELLO =>
      let '(db_con, (cmds, error)) := sel_and_del_cmd stream_id db_con in
      if negb error && negb (Nat.eqb (List.length cmds) 0)
      then Ok (db_con, (SERVER_SEES_HELLO, cmds))
      else
        let '(db_con, (file_send, error)) :=
          sel_and_del_file_send stream_id db_con in
        if negb error && negb (String.eqb file_send "")
        then Ok (db_con, (SERVER_FILE_SEND, [file_send]))
        else
          let '(db_con, (file_recv, error)) :=
            sel_and_del_file_recv stream_id db_con in
          if negb error && negb (String.eqb file_recv "")
          then Ok (db_con, (SERVER_FILE_RECV, [file_recv]))
          else Ok (db_con, (NO_RESPONSE_NEEDED, []))
  | CLIENT_RESPONSE => Ok (db_con, (SERVER_SEES_RESPONSE, []))
  | FILE_NOT_FOUND => Ok (db_con, (FILE_NOT_FOUND, []))
  | _ => Ok (db_con, (NOT_A_VALID_INTEGER, []))
  end.

End ServerComms.

(* ===================================================================== *)
(** ** client/cl_functions.py *)
(* ===================================================================== *)

Module ClFunctions.
Import Py Constants.

(** [subprocess.CompletedProcess], with the fields the client reads. *)
Record CompletedProcess : Type := mkCP {
  returncode : Z;
  stdout : bytes;
  stderr : bytes
}.

Section Host.

(** The machine the client runs on: [platform.system()], and what its
    shell answers to a command line (a command that is not found is a
    nonzero return code of the shell). *)
Variable OS : string.
Variable shell : string -> CompletedProcess.
(** [str(b)] for a [bytes] value, and [s.encode()]. *)
Variable bytes_repr : bytes -> string.
Variable encode : string -> bytes.

(** [subprocess.run(args, check=True, capture_output=True, shell=True)] *)
Definition subprocess_run (args : string) : result CompletedProcess :=
  let cp := shell args in
  if returncode cp =? 0 then Ok cp
  else Raise (CalledProcessError (returncode cp) (stderr cp)).

Definition stock_command (input_cmd : Actions) : result bytes :=
  let cmd := lower (name input_cmd) in
  cmd <- (if String.eqb cmd "ipconfig" then
            if String.eqb OS "Windows" then Ok cmd
            else if String.eqb OS "Linux" then
              Ok (if String.eqb cmd "ipconfig" then "ip a" else cmd)
            else Raise NotImplementedError
          else Ok cmd) ;;
  cp <- subprocess_run ("powershell.exe " ++ cmd)%string ;;
  Ok (stdout cp).

Definition custom_command (cmd : string) : result bytes :=
  try_except
    (cp <- subprocess_run ("powershell.exe " ++ cmd)%string ;;
     Ok (stdout cp))
    (fun e =>
       match e with
       | CalledProcessError _ e_stderr => Some (Ok (encode (bytes_repr e_stderr)))
       | _ => None
       end).

End Host.
End ClFunctions.

(* ===================================================================== *)
(** ** client/client_comms.py *)
(* ===================================================================== *)

Module ClientComms.
Import Py Constants ClFunctions.

Section Host.
Variable OS : string.
Variable shell : string -> CompletedProcess.
Variable bytes_repr : bytes -> string.
Variable encode : string -> bytes.

Definition respond_to_sdr (value : Actions) (data : string)
  : result (bytes * Actions) :=
  let num := Constants.value value in
  if (Constants.value WHOAMI <=? num)
     && (num <=? Constants.value NOT_A_VALID_INTEGER - 1) then
    output <- stock_command OS shell value ;;
    Ok (output, CLIENT_RESPONSE)
  else if num =? Constants.value CUSTOM then
    output <- custom_command shell bytes_repr encode data ;;
    Ok (output, CLIENT_RESPONSE)
  else if num =? Constants.value NO_RESPONSE_NEEDED then
    Ok ([], NO_RESPONSE_NEEDED)
  else Ok (list_byte_of_string "error", CLIENT_FAIL).

End Host.
End ClientComms.

(* ===================================================================== *)
(** ** The transport and the file system, as the two endpoints use them *)
(* ===================================================================== *)

Module Transport.
Import Py Constants.

(** The fields of aioquic's [QuicConnection] that carry the signal
    ([_remote_max_data], [_local_max_data.value]) and the stream frames
    handed to [send_stream_data], oldest first. *)
Record QuicConnection : Type := mkQuic {
  remote_max_data : Z;
  local_max_data : Z;
  sent : list (Z * bytes)
}.

Definition set_remote_max_data (v : Z) (q : QuicConnection) : QuicConnection :=
  mkQuic v (local_max_data q) (sent q).
Definition set_local_max_data (v : Z) (q : QuicConnection) : QuicConnection :=
  mkQuic (remote_max_data q) v (sent q).
Definition send_stream_data (stream_id : Z) (data : bytes)
  (q : QuicConnection) : QuicConnection :=
  mkQuic (remote_max_data q) (local_max_data q) (sent q ++ [(stream_id, data)]).

Inductive QuicEvent : Type :=
| StreamDataReceived (stream_id : Z) (data : bytes)
| ConnectionTerminated (error_code : Z) (reason_phrase : string)
| OtherEvent.

(** Files by name. *)
Definition filesystem : Type := string -> option bytes.

(** [open(name, 'rb')] followed by reads: the content that is still to be
    read, or [FileNotFoundError]. *)
Definition open_rb (fs : filesystem) (name : string) : result bytes :=
  match fs name with
  | Some content => Ok content
  | None => Raise FileNotFoundError
  end.

(** [with open(name, 'ab') as f: f.write(data)] *)
Definition append_ab (name : string) (data : bytes) (fs : filesystem)
  : filesystem :=
  fun n =>
    if String.eqb n name
    then Some (match fs name with Some old => old ++ data | None => data end)
    else fs n.

(** [b[i:j]] for [0 <= i <= j] *)
Definition slice (b : bytes) (i j : nat) : bytes := firstn (j - i) (skipn i b).

(** The chunk size is positive: the chunking loops advance. *)
Lemma MAX_BYTES_pos : (0 < MAX_BYTES)%nat.
Proof. unfold MAX_BYTES. lia. Qed.

End Transport.

(* ===================================================================== *)
(** ** c2_client.py: QuicClientProtocol *)
(* ===================================================================== *)

Module Client.
Import Py Constants SharedFunctionality ClFunctions Transport.

(* The loops below are defined with [MAX_BYTES] folded. *)
Opaque MAX_BYTES.

(** The [while True] loop that sends one response [MAX_BYTES] at a time:
    send [response[i:i + MAX_BYTES]], advance [i], stop once [i] has passed
    the end. *)
Equations? send_response (stream_id : Z) (response : bytes) (i : nat)
  (q : QuicConnection) : QuicConnection
  by wf (List.length response + 1 - i)%nat lt :=
send_response stream_id response i q
  with le_lt_dec (i + MAX_BYTES) (List.length response) := {
  | left _ =>
      send_response stream_id response (i + MAX_BYTES)
        (send_stream_data stream_id (slice response i (i + MAX_BYTES)) q)
  | right _ =>
      send_stream_data stream_id (slice response i (i + MAX_BYTES)) q }.
Proof. pose proof MAX_BYTES_pos. lia. Defined.

(** The [while True] loop that streams an open file [f] (what is left to
    read of it): set the signal, read [MAX_BYTES], stop on an empty read,
    send. *)
Equations? send_file (stream_id : Z) (f : bytes) (q : QuicConnection)
  : QuicConnection by wf (List.length f) lt :=
send_file stream_id f q
  with inspect (firstn MAX_BYTES f) := {
  | exist _ [] _ => set_local_max_data (value CLIENT_FILE_SEND) q
  | exist _ (b :: file_data) _ =>
      send_file stream_id (skipn MAX_BYTES f)
        (send_stream_data stream_id (b :: file_data)
           (set_local_max_data (value CLIENT_FILE_SEND) q)) }.
Proof.
  destruct f as [|b0 f].
  - rewrite firstn_nil in e. discriminate e.
  - pose proof MAX_BYTES_pos. rewrite length_skipn. simpl List.length. lia.
Defined.

Transparent MAX_BYTES.

Record state : Type := mkClient {
  quic : QuicConnection;
  files : filesystem
}.

(** [event.data.decode('utf-8').strip().split(DELIMITER)], then
    [[x.strip() for x in sd_list if x]], on the decoded text. *)
Definition server_data_of (text : string) : result (list string) :=
  sd_list <- split DELIMITER (strip text) ;;
  Ok (map strip (filter (fun x => negb (String.eqb x "")) sd_list)).

Section Host.
Variable OS : string.
Variable shell : string -> CompletedProcess.
Variable bytes_repr : bytes -> string.
Variable encode : string -> bytes.
(** [b.decode('utf-8')] *)
Variable decode : bytes -> result string.

(** [for cmd in server_data: responses.append(custom_command(cmd))] *)
Fixpoint custom_responses (server_data : list string) : result (list bytes) :=
  match server_data with
  | [] => Ok []
  | cmd :: rest =>
      response <- custom_command shell bytes_repr encode cmd ;;
      responses <- custom_responses rest ;;
      Ok (response :: responses)
  end.

(** [for response in responses: ...] *)
Definition send_responses (stream_id : Z) (responses : list bytes)
  (q : QuicConnection) : QuicConnection :=
  fold_left
    (fun q response =>
       send_response stream_id response 0
         (set_local_max_data (value CLIENT_RESPONSE) q))
    responses q.

Definition quic_event_received (event : QuicEvent) (st : state)
  : result state :=
  if remote_max_data (quic st) =? value CLIENT_KILL then Raise KeyboardInterrupt
  else
    match event with
    | StreamDataReceived stream_id data =>
        let info := int_to_enum (remote_max_data (quic st)) in
        if Actions_eqb info SERVER_FILE_SEND then
          Ok (mkClient (quic st) (append_ab "temp" data (files st)))
        else
          text <- decode data ;;
          server_data <- server_data_of text ;;
          if Actions_eqb info SERVER_FILE_RECV then
            match server_data with
            | [] => Raise IndexError
            | filename :: _ =>
                match open_rb (files st) filename with
                | Ok f => Ok (mkClient (send_file stream_id f (quic st)) (files st))
                | Raise _ =>
                    Ok (mkClient
                          (send_stream_data stream_id (list_byte_of_string "error")
                             (set_local_max_data (value FILE_NOT_FOUND) (quic st)))
                          (files st))
                end
            end
          else
            responses <-
              (if Actions_eqb info CUSTOM then custom_responses server_data
               else
                 response <- stock_command OS shell info ;;
                 Ok [response]) ;;
            Ok (mkClient (send_responses stream_id responses (quic st)) (files st))
    | _ => Ok st
    end.

End Host.
End Client.

(* ===================================================================== *)
(** ** c2_server.py: QuicServerProtocol *)
(* ===================================================================== *)

Module Server.
Import Py Constants SharedFunctionality Dealer Transport.

Opaque MAX_BYTES.

(** The [while True] loop that streams an open file [f] (what is left to
    read of it) to the client: read [MAX_BYTES], stop on an empty read,
    send. *)
Equations? send_file (stream_id : Z) (f : bytes) (q : QuicConnection)
  : QuicConnection by wf (List.length f) lt :=
send_file stream_id f q
  with inspect (firstn MAX_BYTES f) := {
  | exist _ [] _ => q
  | exist _ (b :: file_data) _ =>
      send_file stream_id (skipn MAX_BYTES f)
        (send_stream_data stream_id (b :: file_data) q) }.
Proof.
  destruct f as [|b0 f].
  - rewrite firstn_nil in e. discriminate e.
  - pose proof MAX_BYTES_pos. rewrite length_skipn.
    simpl List.length. lia.
Defined.

Transparent MAX_BYTES.

(** The server process: the global [DB_CON], the connection, the disk. *)
Record state : Type := mkServer {
  DB_CON : QuiC2Database;
  quic : QuicConnection;
  files : filesystem
}.

Section Host.
(** [s.encode()] and [b.decode()] *)
Variable encode : string -> bytes.
Variable decode : bytes -> result string.

(** The [for cmd in items] loop that dispatches a batch: a numeric item
    that names an action goes out as a signal with the payload [b'***'], a
    numeric item that names none is dropped ([TypeError], handled), any
    other item goes out as a [CUSTOM] signal with the item and the
    delimiter as payload ([ValueError], handled). *)
Fixpoint dispatch (stream_id : Z) (items : list string) (q : QuicConnection)
  : QuicConnection :=
  match items with
  | [] => q
  | cmd :: rest =>
      let q :=
        match int cmd with
        | Ok int_cmd =>
            let send := int_to_enum int_cmd in
            if Actions_eqb send NOT_A_VALID_INTEGER then q
            else
              send_stream_data stream_id (list_byte_of_string "***")
                (set_local_max_data (value send) q)
        | Raise _ =>
            send_stream_data stream_id (encode (cmd ++ DELIMITER)%string)
              (set_local_max_data (value CUSTOM) q)
        end in
      dispatch stream_id rest q
  end.

(** [items[0]] *)
Definition first_item (items : list string) : result string :=
  match items with
  | [] => Raise IndexError
  | x :: _ => Ok x
  end.

(** [now] is the reading of [time.time()] during the call. *)
Definition quic_event_received (now : float) (event : QuicEvent) (st : state)
  : result state :=
  match event with
  | StreamDataReceived stream_id data =>
      let info := int_to_enum (remote_max_data (quic st)) in
      if Actions_eqb info NOT_A_VALID_INTEGER then
        Ok (mkServer (DB_CON st)
              (send_stream_data stream_id []
                 (set_local_max_data (value CLIENT_KILL)
                    (set_remote_max_data DEFAULT_MAX_DATA (quic st))))
              (files st))
      else if Actions_eqb info CLIENT_FILE_SEND then
        Ok (mkServer (DB_CON st) (quic st) (append_ab "temp" data (files st)))
      else
        '(db, (srvr_resp, items)) <-
          ServerComms.respond_to_sdr now (DB_CON st) stream_id info ;;
        match srvr_resp with
        | SERVER_SEES_RESPONSE =>
            text <- decode data ;;
            Ok (mkServer db (quic st) (files st))
        | NO_RESPONSE_NEEDED => Ok (mkServer db (quic st) (files st))
        | SERVER_FILE_SEND =>
            filename <- first_item items ;;
            let q := set_local_max_data (value srvr_resp) (quic st) in
            f <- open_rb (files st) filename ;;
            Ok (mkServer db (send_file stream_id f q) (files st))
        | SERVER_FILE_RECV =>
            filename <- first_item items ;;
            let q := set_local_max_data (value srvr_resp) (quic st) in
            let q := send_stream_data stream_id
                       (encode (filename ++ DELIMITER)%string) q in
            Ok (mkServer db (set_remote_max_data DEFAULT_MAX_DATA q) (files st))
        | _ => Ok (mkServer db (dispatch stream_id items (quic st)) (files st))
        end
  | ConnectionTerminated error_code reason_phrase =>
      if String.eqb reason_phrase "terminate" then
        let '(current_clients, error) := sel_all_alive (DB_CON st) in
        if existsb (String.eqb (str error_code)) current_clients then
          let '(db, _) := del_stream_id error_code (DB_CON st) in
          Ok (mkServer db (quic st) (files st))
        else Ok st
      else Ok st
  | OtherEvent => Ok st
  end.

End Host.
End Server.

(* ===================================================================== *)
(** ** c2_server.py: SessionTicketStore and db_ops *)
(* ===================================================================== *)

Module ServerProcess.
Import Py Constants Dealer Transport.

Section Tickets.
(** A [SessionTicket] of aioquic: its [ticket] label and whatever else it
    holds. *)
Variable Body : Type.

Record SessionTicket : Type := mkTicket {
  ticket : bytes;
  body : Body
}.

(** [self.tickets], a dict from label to ticket. *)
Definition SessionTicketStore : Type := bytes -> option SessionTicket.

Definition bytes_eqb (a b : bytes) : bool :=
  if list_eq_dec Byte.byte_eq_dec a b then true else false.

(** [__init__] *)
Definition new_store : SessionTicketStore := fun _ => None.

(** [self.tickets[ticket.ticket] = ticket] *)
Definition add (t : SessionTicket) (store : SessionTicketStore)
  : SessionTicketStore :=
  fun label => if bytes_eqb label (ticket t) then Some t else store label.

(** [return self.tickets.pop(label, None)] *)
Definition pop (label : bytes) (store : SessionTicketStore)
  : SessionTicketStore * option SessionTicket :=
  (fun l => if bytes_eqb l label then None else store l, store label).

End Tickets.

(** [db_ops]: one run of the periodic task.  [timers] are the delays of
    the [db_ops] calls that [loop.call_later] has been asked for. *)
Definition db_ops (now : float) (db : QuiC2Database) (timers : list Z)
  : result (QuiC2Database * list Z) :=
  '(db, (removed, clean)) <- clean_stagnant now db ;;
  Ok (db, timers ++ [5]).

End ServerProcess.

(* ===================================================================== *)
(** ** c2_client.py: perform_connect *)
(* ===================================================================== *)

Module ClientProcess.
Import Py Constants Transport.

(** What one [perform_connect] does to the connection it is given by
    [connect]: with [kill] it closes the connection, and the result carries
    the [error_code] and [reason_phrase] of the close; otherwise it arms
    [CLIENT_HELLO] and sends the greeting on the stream [stream_id]. *)
Definition perform_connect (stream_id : Z) (kill : bool) (q : QuicConnection)
  : QuicConnection * option (Z * string) :=
  if kill then (q, Some (stream_id, "terminate"))
  else
    let data := list_byte_of_string "Hello!" in
    (send_stream_data stream_id data
       (set_local_max_data (value CLIENT_HELLO) q),
     None).

End ClientProcess.

(* ===================================================================== *)
(** ** c2_dealer.py: the operator console *)
(* ===================================================================== *)

Module DealerConsole.
Import Py Constants Dealer Transport.

(** The variables of the console loop. *)
Record state : Type := mkConsole {
  db : QuiC2Database;
  clients : list string;
  chosen : Z;
  continue_ : bool
}.

(** The console at start: no listing, no client chosen. *)
Definition start (db : QuiC2Database) : state := mkConsole db [] (-1) true.

(** The filter of the [nc] command: a menu digit becomes the code of its
    stock action, any other text is stripped and lowered. *)
Definition db_cmd_of (cmd : string) : string :=
  if String.eqb cmd "0" then str (value WHOAMI)
  else if String.eqb cmd "1" then str (value HOSTNAME)
  else if String.eqb cmd "2" then str (value PWD)
  else if String.eqb cmd "3" then str (value LS)
  else if String.eqb cmd "4" then str (value IPCONFIG)
  else lower (strip cmd).

(** [clients[cl_num]] for [cl_num in range(0, len(clients))] *)
Definition nth_client (clients : list string) (cl_num : Z) : result string :=
  match nth_error clients (Z.to_nat cl_num) with
  | Some client => Ok client
  | None => Raise IndexError
  end.

Section Disk.
(** The files of the machine the console runs on. *)
Variable files : filesystem.

(** One turn of the [while continue_] loop.  [line] is what the first
    [input()] returns, [answer] what the second one returns in the branches
    that ask a second question. *)
Definition step (line answer : string) (st : state) : result state :=
  let command := strip line in
  if String.eqb command "h" || String.eqb command "help" then Ok st
  else if String.eqb command "e" || String.eqb command "exit" then
    (* raise KeyboardInterrupt, handled by the loop *)
    Ok (mkConsole (db st) (clients st) (chosen st) false)
  else if String.eqb command "si" then
    let '(clients, error) := sel_all_alive (db st) in
    Ok (mkConsole (db st) clients (chosen st) (continue_ st))
  else if String.eqb command "cc" then
    match int answer with
    | Raise _ => Ok st
    | Ok cl_num =>
        if (0 <=? cl_num) && (cl_num <? Z.of_nat (List.length (clients st)))
        then
          client <- nth_client (clients st) cl_num ;;
          chosen <- int client ;;
          Ok (mkConsole (db st) (clients st) chosen (continue_ st))
        else Ok st
    end
  else if String.eqb command "nc" then
    if chosen st =? -1 then Ok st
    else
      db <- insert_new_cmd (chosen st) (db_cmd_of answer) (db st) ;;
      Ok (mkConsole db (clients st) (chosen st) (continue_ st))
  else if String.eqb command "sc" then
    if chosen st =? -1 then Ok st
    else
      let filename := strip answer in
      match open_rb files filename with
      | Raise _ => Ok st
      | Ok _ =>
          db <- insert_new_file_send (chosen st) filename (db st) ;;
          Ok (mkConsole db (clients st) (chosen st) (continue_ st))
      end
  else if String.eqb command "cs" then
    if chosen st =? -1 then Ok st
    else
      let filename := strip answer in
      db <- insert_new_file_recv (chosen st) filename (db st) ;;
      Ok (mkConsole db (clients st) (chosen st) (continue_ st))
  else Ok st.

(** The loop over a script of turns, each a line and the answer to the
    second question; it stops when [continue_] is off. *)
Fixpoint run (script : list (string * string)) (st : state) : result state :=
  match script with
  | [] => Ok st
  | turn :: rest =>
      if continue_ st then
        st <- step (fst turn) (snd turn) st ;;
        run rest st
      else Ok st
  end.

End Disk.

(** [close_connection]: clear the tables; closing the handle changes no
    row. *)
Definition close_connection (db : QuiC2Database) : result QuiC2Database :=
  clear db.

End DealerConsole.

(* ===================================================================== *)
(** ** Vocabulary of the properties *)
(* ===================================================================== *)

Module Vocabulary.
Import Py Constants Dealer Transport.

(** A text made of decimal digits only. *)
Fixpoint all_digits (s : string) : bool :=
  match s with
  | "" => true
  | String c t => is_digit c && all_digits t
  end.

(** The database file before any table was created. *)
Definition blank : QuiC2Database := mkDB None None None None.

(** What a table holds for a client, oldest entry first; nothing when the
    table cannot be read. *)
Definition queued {A : Type} (id : Z) (t : table A) : list A :=
  match t with
  | Some rows => map snd (select_where (str id) rows)
  | None => []
  end.

(** The rows that [insert_new_stream_id] writes for the records [recs]. *)
Definition registry_rows (recs : list (Z * float)) : list (string * float) :=
  map (fun r => (str (fst r), snd r)) recs.

(** A run of [insert_new_cmd] calls, one per element of [ops]. *)
Fixpoint enqueue_commands (ops : list (Z * string)) (db : QuiC2Database)
  : result QuiC2Database :=
  match ops with
  | [] => Ok db
  | op :: rest =>
      db <- insert_new_cmd (fst op) (snd op) db ;;
      enqueue_commands rest db
  end.

(** The commands of [ops] that are addressed to [id], in the order of
    [ops]. *)
Definition commands_for (id : Z) (ops : list (Z * string)) : list string :=
  map snd (filter (fun op => fst op =? id) ops).

(** A run of [insert_new_file_send] (resp. [insert_new_file_recv]) calls
    for one client. *)
Fixpoint enqueue_outbound (id : Z) (filenames : list string)
  (db : QuiC2Database) : result QuiC2Database :=
  match filenames with
  | [] => Ok db
  | f :: rest =>
      db <- insert_new_file_send id f db ;;
      enqueue_outbound id rest db
  end.

Fixpoint enqueue_inbound (id : Z) (filenames : list string)
  (db : QuiC2Database) : result QuiC2Database :=
  match filenames with
  | [] => Ok db
  | f :: rest =>
      db <- insert_new_file_recv id f db ;;
      enqueue_inbound id rest db
  end.

(** The reply to a hello in the words of the specification: the first of
    the three sources that holds an entry for the client decides. *)
Definition hello_reply_as_specified (db : QuiC2Database) (id : Z)
  : Actions * list string :=
  match queued id (cmd_pool db) with
  | _ :: _ => (SERVER_SEES_HELLO, queued id (cmd_pool db))
  | [] =>
      match queued id (files_send db) with
      | filename :: _ => (SERVER_FILE_SEND, [filename])
      | [] =>
          match queued id (files_recv db) with
          | filename :: _ => (SERVER_FILE_RECV, [filename])
          | [] => (NO_RESPONSE_NEEDED, [])
          end
      end
  end.

(** The oldest file name of a queue, when there is one and it is not the
    empty text. *)
Definition oldest_name (names : list string) : option string :=
  match names with
  | filename :: _ => if String.eqb filename "" then None else Some filename
  | [] => None
  end.

(** The reply to a hello where a file source counts only through an
    oldest name that is not empty. *)
Definition hello_reply (db : QuiC2Database) (id : Z) : Actions * list string :=
  match queued id (cmd_pool db) with
  | _ :: _ => (SERVER_SEES_HELLO, queued id (cmd_pool db))
  | [] =>
      match oldest_name (queued id (files_send db)) with
      | Some filename => (SERVER_FILE_SEND, [filename])
      | None =>
          match oldest_name (queued id (files_recv db)) with
          | Some filename => (SERVER_FILE_RECV, [filename])
          | None => (NO_RESPONSE_NEEDED, [])
          end
      end
  end.

(** The registry after a hello of [id] at time [now]. *)
Definition registered (id : Z) (now : float) (recs : list (Z * float))
  : list (Z * float) :=
  if existsb (Z.eqb id) (map fst recs) then recs else recs ++ [(id, now)].

(** The frames handed to the transport between two states of a
    connection. *)
Definition frames_since (q q' : QuicConnection) : list (Z * bytes) :=
  skipn (List.length (sent q)) (sent q').

(** The bytes of a file; none for a file that is not there. *)
Definition content (fs : filesystem) (name : string) : bytes :=
  match fs name with
  | Some b => b
  | None => []
  end.

(** The peer's handler receiving frames in the order they were sent, one
    [StreamDataReceived] event each. *)
Fixpoint receive_all {S : Type} (handler : QuicEvent -> S -> result S)
  (frames : list (Z * bytes)) (st : S) : result S :=
  match frames with
  | [] => Ok st
  | frame :: rest =>
      st <- handler (StreamDataReceived (fst frame) (snd frame)) st ;;
      receive_all handler rest st
  end.

(** A run of frames on one stream whose chunks are each at most
    [MAX_BYTES] long and, put end to end in order, are [payload]. *)
Definition carries (stream_id : Z) (payload : bytes) (frames : list (Z * bytes))
  : Prop :=
  Forall (fun fr => fst fr = stream_id /\ (List.length (snd fr) <= MAX_BYTES)%nat)
    frames
  /\ List.concat (map snd frames) = payload.

(** [sep] occurs in [s]. *)
Fixpoint contains (sep s : string) : bool :=
  match s with
  | "" => prefix sep ""
  | String _ t => prefix sep s || contains sep t
  end.

(** The last character of [s] is [c]. *)
Fixpoint ends_with (c : ascii) (s : string) : bool :=
  match s with
  | "" => false
  | String a t =>
      match t with
      | "" => Ascii.eqb a c
      | _ => ends_with c t
      end
  end.

(** A text item that delimiter framing carries unchanged: not empty, no
    whitespace at either end, no delimiter inside, and no asterisk at the
    end that would run into the delimiter behind it. *)
Definition framable (x : string) : Prop :=
  x <> "" /\ strip x = x /\ contains DELIMITER x = false
  /\ ends_with "*" x = false.

(** Several messages merged into one by the transport. *)
Fixpoint coalesce (messages : list string) : string :=
  match messages with
  | [] => ""
  | m :: rest => (m ++ coalesce rest)%string
  end.

(** The payload text of one dispatched custom command. *)
Definition framed (cmd : string) : string := (cmd ++ DELIMITER)%string.

End Vocabulary.

(* ===================================================================== *)
(** ** Vocabulary of the further properties *)
(* ===================================================================== *)

Module Scenarios.
Import Py Constants Dealer Transport Vocabulary.

(** A run of [insert_new_stream_id] calls, one per hello, each with the
    time it arrived at. *)
Fixpoint register_all (arrivals : list (Z * float)) (db : QuiC2Database)
  : result QuiC2Database :=
  match arrivals with
  | [] => Ok db
  | arrival :: rest =>
      '(db, _) <- insert_new_stream_id (snd arrival) (fst arrival) db ;;
      register_all rest db
  end.

(** The records a run of hellos leaves in a registry that was empty. *)
Definition roster (arrivals : list (Z * float)) : list (Z * float) :=
  fold_left (fun recs arrival => registered (fst arrival) (snd arrival) recs)
    arrivals [].

(** The records of a registry without those of [id]. *)
Definition without (id : Z) (recs : list (Z * float)) : list (Z * float) :=
  filter (fun r => negb (fst r =? id)) recs.

(** The command line that [stock_command] runs for an action other than
    [IPCONFIG]: the lower-cased name of the member behind the shell's
    name. *)
Definition command_line (a : Actions) : string :=
  ("powershell.exe " ++ lower (name a))%string.

Section Captured.
Variable shell : string -> ClFunctions.CompletedProcess.
Variable bytes_repr : bytes -> string.
Variable encode : string -> bytes.

(** What the shell leaves of a custom command: its output, or the text of
    its error stream when it failed. *)
Definition captured (cmd : string) : bytes :=
  let cp := shell ("powershell.exe " ++ cmd)%string in
  if ClFunctions.returncode cp =? 0 then ClFunctions.stdout cp
  else encode (bytes_repr (ClFunctions.stderr cp)).

End Captured.

(** The menu of the console's [nc] command: the digit the operator types
    and the stock action it stands for. *)
Definition menu : list (string * Actions) :=
  [("0", WHOAMI); ("1", HOSTNAME); ("2", PWD); ("3", LS); ("4", IPCONFIG)].


End Scenarios.

(* ===================================================================== *)
(** * Properties *)
(* ===================================================================== *)

(** ** Facts about the runtime fragment *)

Module PyFacts.
Import Py Vocabulary.

Lemma digit_not_space c : is_digit c = true -> int_isspace c = false.
Proof.
  unfold is_digit, int_isspace. generalize (nat_of_ascii c). intros n H.
  apply andb_true_iff in H. destruct H as [H1 H2].
  apply Nat.leb_le in H1. apply Nat.leb_le in H2.
  repeat match goal with
  | |- (_ || _)%bool = false => apply orb_false_iff; split
  | |- (_ && _)%bool = false => apply andb_false_iff
  end.
  - right. apply Nat.leb_gt. lia.
  - apply Nat.eqb_neq. lia.
  - apply Nat.eqb_neq. lia.
  - apply Nat.eqb_neq. lia.
Qed.

Lemma digit_not_sign c :
  is_digit c = true ->
  Ascii.eqb c "-" = false /\ Ascii.eqb c "+" = false /\ Ascii.eqb c "_" = false.
Proof.
  intros H.
  repeat split;
    (destruct (Ascii.eqb_spec c "-"); destruct (Ascii.eqb_spec c "+");
     destruct (Ascii.eqb_spec c "_"); subst; try reflexivity;
     vm_compute in H; discriminate H).
Qed.

Lemma string_of_uint_digits (u : Decimal.uint) :
  all_digits (NilEmpty.string_of_uint u) = true.
Proof. induction u; simpl; auto. Qed.

Lemma rstrip_digits s : all_digits s = true -> rstrip_by int_isspace s = s.
Proof.
  induction s as [|c t IH]; simpl; [reflexivity|].
  intros H. apply andb_true_iff in H. destruct H as [Hc Ht].
  rewrite (IH Ht). destruct t; [|reflexivity].
  rewrite (digit_not_space _ Hc). reflexivity.
Qed.

Lemma strip_digits s :
  all_digits s = true -> rstrip_by int_isspace (lstrip_by int_isspace s) = s.
Proof.
  intros H.
  replace (lstrip_by int_isspace s) with s; [apply rstrip_digits, H|].
  destruct s as [|c t]; [reflexivity|]. simpl in *.
  apply andb_true_iff in H. destruct H as [Hc _].
  rewrite (digit_not_space _ Hc). reflexivity.
Qed.

Lemma digits_ok_digits s b :
  all_digits s = true -> s <> "" -> digits_ok b s = true.
Proof.
  revert b. induction s as [|c t IH]; intros b H Hne; [congruence|].
  simpl in *. apply andb_true_iff in H. destruct H as [Hc Ht].
  rewrite Hc. destruct t as [|c' t']; [reflexivity|].
  apply IH; [exact Ht | discriminate].
Qed.

Lemma drop_underscores_digits s :
  all_digits s = true -> drop_underscores s = s.
Proof.
  induction s as [|c t IH]; simpl; [reflexivity|].
  intros H. apply andb_true_iff in H. destruct H as [Hc Ht].
  destruct (digit_not_sign _ Hc) as (_ & _ & ->). now rewrite IH.
Qed.

(** [int] on the digits of a positive number, with or without a sign. *)
Lemma int_digits (p : positive) :
  let s := NilEmpty.string_of_uint (Pos.to_uint p) in
  int s = Ok (Z.pos p) /\ int (String "-" s) = Ok (Z.neg p).
Proof.
  intros s.
  assert (Hd : all_digits s = true) by apply string_of_uint_digits.
  assert (Hne : s <> "").
  { unfold s. pose proof (DecimalPos.Unsigned.to_uint_nonnil p) as Hnil.
    destruct (Pos.to_uint p); simpl; congruence. }
  assert (Hval : Z.of_uint (Pos.to_uint p) = Z.pos p).
  { exact (DecimalZ.of_to (Z.pos p)). }
  split; unfold int.
  - rewrite (strip_digits _ Hd).
    destruct s as [|c t] eqn:Es; [congruence|].
    assert (Hc : is_digit c = true) by (simpl in Hd; apply andb_true_iff in Hd; tauto).
    destruct (digit_not_sign _ Hc) as (-> & -> & _).
    rewrite (digits_ok_digits _ false Hd Hne), (drop_underscores_digits _ Hd).
    unfold s in Es. rewrite <- Es, NilEmpty.usu, Hval. reflexivity.
  - assert (Hs : rstrip_by int_isspace (lstrip_by int_isspace (String "-" s))
                 = String "-" s).
    { simpl. rewrite (rstrip_digits _ Hd).
      destruct s; [congruence | reflexivity]. }
    rewrite Hs. simpl.
    rewrite (digits_ok_digits _ false Hd Hne), (drop_underscores_digits _ Hd).
    unfold s. rewrite NilEmpty.usu, Hval. reflexivity.
Qed.

(** [int(str(n)) == n] *)
Lemma int_str (n : Z) : int (str n) = Ok n.
Proof.
  destruct n as [|p|p]; [reflexivity| |]; unfold str; simpl Z.to_int;
    pose proof (DecimalPos.Unsigned.to_uint_nonnil p) as Hnil;
    destruct (int_digits p) as [Hpos Hneg]; simpl NilZero.string_of_int;
    unfold NilZero.string_of_uint;
    destruct (Pos.to_uint p) eqn:E; try congruence; assumption.
Qed.

(** [str] gives different texts to different integers. *)
Lemma str_inj (a b : Z) : str a = str b -> a = b.
Proof.
  intros H. pose proof (int_str a) as Ha. rewrite H, int_str in Ha. congruence.
Qed.

Lemma str_eqb (a b : Z) : String.eqb (str a) (str b) = (a =? b).
Proof.
  destruct (Z.eqb_spec a b) as [->|Hne]; [apply String.eqb_refl|].
  apply String.eqb_neq. intros H. apply Hne, str_inj, H.
Qed.

End PyFacts.

(** ** The mailbox store and the client registry *)

Module DealerFacts.
Import Py Constants Dealer Vocabulary PyFacts.

Lemma select_where_app {A : Type} key (r1 r2 : list (string * A)) :
  select_where key (r1 ++ r2) = select_where key r1 ++ select_where key r2.
Proof. apply filter_app. Qed.

Lemma delete_where_app {A : Type} key (r1 r2 : list (string * A)) :
  delete_where key (r1 ++ r2) = delete_where key r1 ++ delete_where key r2.
Proof. apply filter_app. Qed.

(** Nothing is left for a key after its rows were deleted. *)
Lemma select_after_delete {A : Type} key (rows : list (string * A)) :
  select_where key (delete_where key rows) = [].
Proof.
  induction rows as [|row rows IH]; [reflexivity|].
  unfold select_where, delete_where in *. simpl.
  destruct (String.eqb (fst row) key) eqn:E; simpl; [exact IH|].
  rewrite E. exact IH.
Qed.

(** The rows of another key are not touched by a delete. *)
Lemma select_other_after_delete {A : Type} key key' (rows : list (string * A)) :
  key' <> key ->
  select_where key' (delete_where key rows) = select_where key' rows.
Proof.
  intros Hne. induction rows as [|row rows IH]; [reflexivity|].
  unfold select_where, delete_where in *. simpl.
  destruct (String.eqb_spec (fst row) key) as [E|E]; simpl.
  - destruct (String.eqb_spec (fst row) key') as [E'|E']; [congruence|exact IH].
  - rewrite IH. reflexivity.
Qed.

(** Deleting the rows of a key that has none changes nothing. *)
Lemma delete_absent {A : Type} key (rows : list (string * A)) :
  ~ In key (map fst rows) -> delete_where key rows = rows.
Proof.
  induction rows as [|row rows IH]; intros Hnot; [reflexivity|].
  unfold delete_where in *. simpl in *.
  destruct (String.eqb_spec (fst row) key) as [E|E]; simpl.
  - exfalso. apply Hnot. left. exact E.
  - f_equal. apply IH. intros Hin. apply Hnot. right. exact Hin.
Qed.

(** The commands that a run of enqueues adds for one client. *)
Lemma queued_enqueued id (ops : list (Z * string)) :
  map snd (select_where (str id) (map (fun op => (str (fst op), snd op)) ops))
  = commands_for id ops.
Proof.
  unfold commands_for, select_where.
  induction ops as [|op ops IH]; [reflexivity|]. simpl.
  rewrite str_eqb. destruct (fst op =? id); simpl; rewrite IH; reflexivity.
Qed.

Lemma enqueue_commands_rows ops : forall db rows,
  cmd_pool db = Some rows ->
  enqueue_commands ops db =
  Ok (set_cmd_pool
        (Some (rows ++ map (fun op => (str (fst op), snd op)) ops)) db).
Proof.
  induction ops as [|op ops IH]; intros db rows Hrows; simpl.
  - rewrite app_nil_r, <- Hrows. destruct db; reflexivity.
  - unfold insert_new_cmd. rewrite Hrows. simpl.
    rewrite (IH _ (rows ++ [(str (fst op), snd op)])) by reflexivity.
    rewrite <- app_assoc. reflexivity.
Qed.

Lemma sel_and_del_cmd_rows id db rows :
  cmd_pool db = Some rows ->
  sel_and_del_cmd id db
  = (set_cmd_pool (Some (delete_where (str id) rows)) db,
     (map snd (select_where (str id) rows), false)).
Proof. intros H. unfold sel_and_del_cmd. rewrite H. reflexivity. Qed.

Lemma init_cmd_pool file : exists rows, cmd_pool (init file) = Some rows.
Proof. destruct file as [a [rows|] s r]; simpl; eauto. Qed.

(** C6. [take_commands] ([sel_and_del_cmd]) hands out the commands queued
    for a client in the order [enqueue_command] ([insert_new_cmd]) received
    them, whatever was enqueued for other clients in between, and deletes
    them in the same call: a second call at once returns the empty
    sequence, and what is queued for any other client is as it was. *)
Theorem take_commands_in_order_once :
  forall (file : QuiC2Database) (ops : list (Z * string)) (id : Z),
    let db := init file in
    exists db1,
      enqueue_commands ops db = Ok db1 /\
      snd (sel_and_del_cmd id db1)
      = (queued id (cmd_pool db) ++ commands_for id ops, false) /\
      snd (sel_and_del_cmd id (fst (sel_and_del_cmd id db1))) = ([], false) /\
      forall id', id' <> id ->
        queued id' (cmd_pool (fst (sel_and_del_cmd id db1)))
        = queued id' (cmd_pool db) ++ commands_for id' ops.
Proof.
  intros file ops id db.
  destruct (init_cmd_pool file) as [rows Hrows]. fold db in Hrows.
  eexists. split; [apply (enqueue_commands_rows ops db rows Hrows)|].
  set (added := map (fun op => (str (fst op), snd op)) ops).
  rewrite (sel_and_del_cmd_rows id _ (rows ++ added)) by reflexivity.
  cbn [fst snd].
  rewrite (sel_and_del_cmd_rows id _ (delete_where (str id) (rows ++ added)))
    by reflexivity.
  cbn [fst snd cmd_pool set_cmd_pool]. rewrite Hrows. unfold queued, added.
  repeat split.
  - rewrite select_where_app, map_app, queued_enqueued. reflexivity.
  - rewrite select_after_delete. reflexivity.
  - intros id' Hne.
    rewrite select_other_after_delete
      by (intros E; apply Hne; apply str_inj; exact E).
    rewrite select_where_app, map_app, queued_enqueued. reflexivity.
Qed.

(** *** The registry *)

Lemma stream_id_seen_registry id recs :
  stream_id_seen id (map (fun row => fst row) (registry_rows recs))
  = Ok (existsb (Z.eqb id) (map fst recs)).
Proof.
  induction recs as [|rec recs IH]; [reflexivity|].
  simpl. rewrite int_str. simpl.
  destruct (id =? fst rec); [reflexivity | exact IH].
Qed.

Lemma existsb_eqb_false id (ids : list Z) :
  ~ In id ids -> existsb (Z.eqb id) ids = false.
Proof.
  intros Hnot. destruct (existsb (Z.eqb id) ids) eqn:E; [|reflexivity].
  apply existsb_exists in E. destruct E as (x & Hin & Hx).
  apply Z.eqb_eq in Hx. subst x. contradiction.
Qed.

Lemma existsb_eqb_true id (ids : list Z) :
  In id ids -> existsb (Z.eqb id) ids = true.
Proof.
  intros Hin. apply existsb_exists. exists id. split; [exact Hin|apply Z.eqb_refl].
Qed.

(** An identifier that is registered is turned away, and nothing moves. *)
Lemma register_known db recs id now :
  alive_clients db = Some (registry_rows recs) ->
  In id (map fst recs) ->
  insert_new_stream_id now id db = Ok (db, false).
Proof.
  intros Hrows Hin. unfold insert_new_stream_id, sel_all_alive.
  rewrite Hrows, stream_id_seen_registry, (existsb_eqb_true _ _ Hin).
  reflexivity.
Qed.

(** An identifier that is not registered is appended with the time of the
    call. *)
Lemma register_new db recs id now :
  alive_clients db = Some (registry_rows recs) ->
  ~ In id (map fst recs) ->
  insert_new_stream_id now id db
  = Ok (set_alive_clients (Some (registry_rows (recs ++ [(id, now)]))) db, true).
Proof.
  intros Hrows Hnot. unfold insert_new_stream_id, sel_all_alive.
  rewrite Hrows, stream_id_seen_registry, (existsb_eqb_false _ _ Hnot).
  simpl. unfold registry_rows. rewrite map_app. reflexivity.
Qed.

(** C7. [register] ([insert_new_stream_id]) is idempotent: on a registry
    that does not hold [id] the first call appends the record {id, now} and
    returns true; a second call, at whatever later time, returns false and
    returns the registry as the first call left it: same size, and the
    record of [id] still carries the time of the first call. *)
Theorem register_is_idempotent :
  forall (db : QuiC2Database) (recs : list (Z * float)) (id : Z)
         (now later : float),
    alive_clients db = Some (registry_rows recs) ->
    ~ In id (map fst recs) ->
    let db1 :=
      set_alive_clients (Some (registry_rows (recs ++ [(id, now)]))) db in
    insert_new_stream_id now id db = Ok (db1, true) /\
    insert_new_stream_id later id db1 = Ok (db1, false).
Proof.
  intros db recs id now later Hrows Hnot db1. split.
  - apply register_new; assumption.
  - apply (register_known db1 (recs ++ [(id, now)])); [reflexivity|].
    rewrite map_app. apply in_or_app. right. left. reflexivity.
Qed.

Lemma register_is_idempotent_witness :
  let db := init blank in
  let db1 := set_alive_clients (Some (registry_rows [(4, 100%float)])) db in
  insert_new_stream_id 100%float 4 db = Ok (db1, true) /\
  insert_new_stream_id 200%float 4 db1 = Ok (db1, false).
Proof.
  apply (register_is_idempotent (init blank) [] 4 100%float 200%float).
  - reflexivity.
  - simpl. tauto.
Defined.

(** C8. [remove] ([del_stream_id]) does not tell whether a row existed: on
    every database object it returns true, and so it does for an identifier
    that no row carries, where the specification asks for false. *)
Theorem del_stream_id_true_without_row :
  (forall (file : QuiC2Database) (id : Z),
      snd (del_stream_id id (init file)) = true) /\
  del_stream_id 8 (init blank) = (init blank, true).
Proof.
  split; [|reflexivity].
  intros [[a|] c s r] id; reflexivity.
Qed.

(** *** File entries *)

Lemma enqueue_outbound_rows id filenames : forall db rows,
  files_send db = Some rows ->
  enqueue_outbound id filenames db =
  Ok (set_files_send (Some (rows ++ map (fun f => (str id, f)) filenames)) db).
Proof.
  induction filenames as [|f filenames IH]; intros db rows Hrows; simpl.
  - rewrite app_nil_r, <- Hrows. destruct db; reflexivity.
  - unfold insert_new_file_send. rewrite Hrows. simpl.
    rewrite (IH _ (rows ++ [(str id, f)])) by reflexivity.
    rewrite <- app_assoc. reflexivity.
Qed.

Lemma enqueue_inbound_rows id filenames : forall db rows,
  files_recv db = Some rows ->
  enqueue_inbound id filenames db =
  Ok (set_files_recv (Some (rows ++ map (fun f => (str id, f)) filenames)) db).
Proof.
  induction filenames as [|f filenames IH]; intros db rows Hrows; simpl.
  - rewrite app_nil_r, <- Hrows. destruct db; reflexivity.
  - unfold insert_new_file_recv. rewrite Hrows. simpl.
    rewrite (IH _ (rows ++ [(str id, f)])) by reflexivity.
    rewrite <- app_assoc. reflexivity.
Qed.

Lemma sel_and_del_file_send_rows id db rows :
  files_send db = Some rows ->
  sel_and_del_file_send id db
  = (set_files_send (Some (delete_where (str id) rows)) db,
     (first_filename (select_where (str id) rows), false)).
Proof. intros H. unfold sel_and_del_file_send. rewrite H. reflexivity. Qed.

Lemma sel_and_del_file_recv_rows id db rows :
  files_recv db = Some rows ->
  sel_and_del_file_recv id db
  = (set_files_recv (Some (delete_where (str id) rows)) db,
     (first_filename (select_where (str id) rows), false)).
Proof. intros H. unfold sel_and_del_file_recv. rewrite H. reflexivity. Qed.

(** C1. [take_outbound_file] ([sel_and_del_file_send]) returns the oldest
    file name queued for the client but deletes every file name queued for
    it: after [f :: rest] were enqueued on a new database the first call
    returns [f] and the call that follows returns the empty name, also when
    [rest] holds names that were never handed out.  The same for
    [take_inbound_file] ([sel_and_del_file_recv]). *)
Theorem take_file_deletes_whole_queue :
  forall (id : Z) (f : string) (rest : list string),
    (exists db1,
        enqueue_outbound id (f :: rest) (init blank) = Ok db1 /\
        snd (sel_and_del_file_send id db1) = (f, false) /\
        snd (sel_and_del_file_send id (fst (sel_and_del_file_send id db1)))
        = ("", false)) /\
    (exists db1,
        enqueue_inbound id (f :: rest) (init blank) = Ok db1 /\
        snd (sel_and_del_file_recv id db1) = (f, false) /\
        snd (sel_and_del_file_recv id (fst (sel_and_del_file_recv id db1)))
        = ("", false)).
Proof.
  intros id f rest. split; eexists; (split; [|split]).
  - apply (enqueue_outbound_rows id (f :: rest) (init blank) []). reflexivity.
  - erewrite sel_and_del_file_send_rows by reflexivity.
    simpl. unfold select_where. simpl. rewrite String.eqb_refl. reflexivity.
  - erewrite sel_and_del_file_send_rows by reflexivity. cbn [fst].
    erewrite sel_and_del_file_send_rows by reflexivity. cbn [snd].
    rewrite select_after_delete. reflexivity.
  - apply (enqueue_inbound_rows id (f :: rest) (init blank) []). reflexivity.
  - erewrite sel_and_del_file_recv_rows by reflexivity.
    simpl. unfold select_where. simpl. rewrite String.eqb_refl. reflexivity.
  - erewrite sel_and_del_file_recv_rows by reflexivity. cbn [fst].
    erewrite sel_and_del_file_recv_rows by reflexivity. cbn [snd].
    rewrite select_after_delete. reflexivity.
Qed.

(** Two names queued for one client: the second one is lost. *)
Example take_file_loses_second_name :
  exists db1,
    enqueue_outbound 12345 ["a.txt"; "b.txt"] (init blank) = Ok db1 /\
    snd (sel_and_del_file_send 12345 db1) = ("a.txt", false) /\
    snd (sel_and_del_file_send 12345 (fst (sel_and_del_file_send 12345 db1)))
    = ("", false).
Proof. eexists. repeat split. Qed.

(** *** The staleness sweep *)

(** C2. The staleness sweep ([clean_stagnant]) evicts nothing: on every
    registry that holds a row it raises at the first row, because it reads
    the second character of the identifier text where it means the
    last-seen time ([IndexError] for a one-character identifier,
    [TypeError] otherwise).  So it does on the registry of the
    specification's example, with one record seen 61 seconds ago and one
    seen 59 seconds ago. *)
Theorem clean_stagnant_raises_on_any_row :
  (forall (now : float) (row : string * float) rows c s r,
      clean_stagnant now (mkDB (Some (row :: rows)) c s r)
      = Raise (match String.get 1 (fst row) with
               | Some _ => TypeError
               | None => IndexError
               end)) /\
  clean_stagnant 1000%float
    (set_alive_clients
       (Some (registry_rows [(12, 939%float); (16, 941%float)])) (init blank))
  = Raise TypeError.
Proof.
  split; [|reflexivity].
  intros now row rows c s r.
  unfold clean_stagnant, sel_all_alive. simpl. unfold getitem.
  destruct (String.get 1 (fst row)); reflexivity.
Qed.

End DealerFacts.

(** ** The server's reply to a hello *)

Module ServerCommsFacts.
Import Py Constants Dealer ServerComms Vocabulary PyFacts DealerFacts.

(** Registration of a hello, whether or not the client is known. *)
Lemma register_on_hello db recs id now :
  alive_clients db = Some (registry_rows recs) ->
  insert_new_stream_id now id db
  = Ok (set_alive_clients (Some (registry_rows (registered id now recs))) db,
        negb (existsb (Z.eqb id) (map fst recs))).
Proof.
  intros Hrows. unfold registered.
  destruct (existsb (Z.eqb id) (map fst recs)) eqn:E.
  - rewrite (register_known db recs id now Hrows).
    + rewrite <- Hrows. destruct db; reflexivity.
    + apply existsb_exists in E. destruct E as (x & Hin & Hx).
      apply Z.eqb_eq in Hx. subst x. exact Hin.
  - apply register_new; [exact Hrows|].
    intros Hin. rewrite (existsb_eqb_true _ _ Hin) in E. discriminate E.
Qed.

(** What the three destructive reads return, and the tables they leave
    alone. *)
Lemma sel_and_del_cmd_reads id db db' cmds err :
  sel_and_del_cmd id db = (db', (cmds, err)) ->
  cmds = queued id (cmd_pool db) /\ (err = true -> cmds = []) /\
  alive_clients db' = alive_clients db /\
  files_send db' = files_send db /\ files_recv db' = files_recv db.
Proof.
  unfold sel_and_del_cmd, queued. destruct db as [a [rows|] s r]; simpl;
    intros H; inversion H; subst; simpl; repeat split; congruence.
Qed.

Lemma file_served (names : list (string * string)) (err : bool) :
  (err = true -> names = []) ->
  (if negb err && negb (String.eqb (first_filename names) "")
   then Some (first_filename names) else None)
  = oldest_name (map snd names).
Proof.
  intros Herr. destruct names as [|row names]; simpl.
  - rewrite andb_false_r. reflexivity.
  - destruct err; [specialize (Herr eq_refl); discriminate|]. simpl.
    destruct (String.eqb (snd row) ""); reflexivity.
Qed.

Lemma sel_and_del_file_send_reads id db db' filename err :
  sel_and_del_file_send id db = (db', (filename, err)) ->
  (if negb err && negb (String.eqb filename "") then Some filename else None)
  = oldest_name (queued id (files_send db)) /\
  alive_clients db' = alive_clients db /\ files_recv db' = files_recv db.
Proof.
  unfold sel_and_del_file_send, queued. destruct db as [a c [rows|] r]; simpl;
    intros H; inversion H; subst; simpl; repeat split.
  apply (file_served (select_where (str id) rows) false). discriminate.
Qed.

Lemma sel_and_del_file_recv_reads id db db' filename err :
  sel_and_del_file_recv id db = (db', (filename, err)) ->
  (if negb err && negb (String.eqb filename "") then Some filename else None)
  = oldest_name (queued id (files_recv db)) /\
  alive_clients db' = alive_clients db.
Proof.
  unfold sel_and_del_file_recv, queued. destruct db as [a c s [rows|]]; simpl;
    intros H; inversion H; subst; simpl; repeat split.
  apply (file_served (select_where (str id) rows) false). discriminate.
Qed.

(** C4 as stated fails: a queued inbound request whose file name is the
    empty text is consumed and answered with [NO_RESPONSE_NEEDED]. *)
Lemma hello_reply_empty_name_counterexample :
  ~ (forall (now : float) (db : QuiC2Database) (recs : list (Z * float))
            (id : Z) db' reply,
        alive_clients db = Some (registry_rows recs) ->
        respond_to_sdr now db id CLIENT_HELLO = Ok (db', reply) ->
        reply = hello_reply_as_specified db id).
Proof.
  intros H.
  specialize (H 100%float
                (set_files_recv (Some [(str 4, "")]) (init blank)) [] 4
                (mkDB (Some (registry_rows [(4, 100%float)]))
                   (Some []) (Some []) (Some []))
                (NO_RESPONSE_NEEDED, []) eq_refl eq_refl).
  discriminate H.
Qed.

(** C4, amended. On [CLIENT_HELLO] the handler [respond_to_sdr] first
    registers the client (a known identifier is left as it is) and then
    replies by priority: the queued commands, all of them, with
    [SERVER_SEES_HELLO] when there are any; else the oldest queued outbound
    file name with [SERVER_FILE_SEND] when that name is not empty; else the
    oldest queued inbound file name with [SERVER_FILE_RECV] when that name
    is not empty; else [NO_RESPONSE_NEEDED] with no items.  A source whose
    table cannot be read counts as empty. *)
Theorem hello_reply_by_priority :
  forall (now : float) (db : QuiC2Database) (recs : list (Z * float)) (id : Z),
    alive_clients db = Some (registry_rows recs) ->
    exists db',
      respond_to_sdr now db id CLIENT_HELLO = Ok (db', hello_reply db id) /\
      alive_clients db' = Some (registry_rows (registered id now recs)).
Proof.
  intros now db recs id Hrows.
  unfold respond_to_sdr. rewrite (register_on_hello db recs id now Hrows).
  cbn [bind]. unfold hello_reply.
  set (db1 := set_alive_clients _ db).
  assert (Ha1 : alive_clients db1 = Some (registry_rows (registered id now recs)))
    by reflexivity.
  change (cmd_pool db) with (cmd_pool db1).
  change (files_send db) with (files_send db1).
  change (files_recv db) with (files_recv db1).
  clearbody db1.
  destruct (sel_and_del_cmd id db1) as [db2 [cmds err]] eqn:E2.
  apply sel_and_del_cmd_reads in E2.
  destruct E2 as (Hcmds & Herr & Ha2 & Hs2 & Hr2). rewrite <- Hcmds.
  destruct cmds as [|cmd cmds].
  2:{ destruct err; [specialize (Herr eq_refl); discriminate|].
      exists db2. split; [reflexivity|congruence]. }
  rewrite andb_false_r.
  destruct (sel_and_del_file_send id db2) as [db3 [file_send err3]] eqn:E3.
  apply sel_and_del_file_send_reads in E3. destruct E3 as (Hserved & Ha3 & Hr3).
  rewrite <- Hs2, <- Hserved.
  destruct (negb err3 && negb (String.eqb file_send "")).
  { exists db3. split; [reflexivity|congruence]. }
  destruct (sel_and_del_file_recv id db3) as [db4 [file_recv err4]] eqn:E4.
  apply sel_and_del_file_recv_reads in E4. destruct E4 as (Hserved4 & Ha4).
  rewrite <- Hr2, <- Hr3, <- Hserved4.
  destruct (negb err4 && negb (String.eqb file_recv ""));
    exists db4; (split; [reflexivity|congruence]).
Qed.

(** The scenario of the specification: one command queued, the client
    not yet known. *)
Lemma hello_reply_by_priority_witness :
  let db := set_cmd_pool (Some [(str 12345, "LS")]) (init blank) in
  alive_clients db = Some (registry_rows []) /\
  exists db',
    respond_to_sdr 100%float db 12345 CLIENT_HELLO
    = Ok (db', (SERVER_SEES_HELLO, ["LS"])) /\
    alive_clients db' = Some (registry_rows [(12345, 100%float)]).
Proof.
  split; [reflexivity|].
  exact (hello_reply_by_priority 100%float
           (set_cmd_pool (Some [(str 12345, "LS")]) (init blank)) [] 12345
           eq_refl).
Defined.

End ServerCommsFacts.

(** ** Command execution on the client *)

Module ClFunctionsFacts.
Import Py Constants SharedFunctionality ClFunctions Transport Vocabulary.

(** Decoding the value of a member gives the member back. *)
Lemma int_to_enum_value (a : Actions) : int_to_enum (value a) = a.
Proof. destruct a; reflexivity. Qed.

(** The members of the stock range. *)
Lemma stock_range (a : Actions) :
  value WHOAMI <= value a <= value NOT_A_VALID_INTEGER - 1 ->
  a = WHOAMI \/ a = HOSTNAME \/ a = PWD \/ a = LS \/ a = IPCONFIG.
Proof. destruct a; simpl; intros H; try lia; tauto. Qed.

Lemma subprocess_run_fails shell args :
  returncode (shell args) <> 0 ->
  subprocess_run shell args
  = Raise (CalledProcessError (returncode (shell args)) (stderr (shell args))).
Proof.
  intros H. unfold subprocess_run.
  destruct (Z.eqb_spec (returncode (shell args)) 0); [contradiction|reflexivity].
Qed.

(** [custom_command] turns a failed command into a payload. *)
Lemma custom_command_captures shell bytes_repr encode cmd :
  returncode (shell ("powershell.exe " ++ cmd)%string) <> 0 ->
  custom_command shell bytes_repr encode cmd
  = Ok (encode (bytes_repr (stderr (shell ("powershell.exe " ++ cmd)%string)))).
Proof.
  intros H. unfold custom_command. rewrite (subprocess_run_fails _ _ H).
  reflexivity.
Qed.

(** [stock_command] raises when its command fails. *)
Lemma stock_command_raises OS shell (a : Actions) :
  (forall args, returncode (shell args) <> 0) ->
  exists e, stock_command OS shell a = Raise e.
Proof.
  intros Hfail. unfold stock_command.
  destruct (String.eqb (lower (name a)) "ipconfig").
  - destruct (String.eqb OS "Windows").
    + cbn [bind]. rewrite (subprocess_run_fails _ _ (Hfail _)). eexists. reflexivity.
    + destruct (String.eqb OS "Linux").
      * cbn [bind]. rewrite (subprocess_run_fails _ _ (Hfail _)).
        eexists. reflexivity.
      * eexists. reflexivity.
  - cbn [bind]. rewrite (subprocess_run_fails _ _ (Hfail _)). eexists. reflexivity.
Qed.

(** C3. On a host where the shell reports a failure for every command
    line, [custom_command] returns the captured error text as its payload,
    but [stock_command] raises for every action of the stock range, and
    the exception leaves the client's [quic_event_received] uncaught. *)
Theorem stock_command_failure_escapes :
  forall (OS : string) (shell : string -> CompletedProcess)
         (bytes_repr : bytes -> string) (encode : string -> bytes)
         (decode : bytes -> result string)
         (a : Actions) (cmd : string) (stream_id : Z) (data : bytes)
         (lmd : Z) (out : list (Z * bytes)) (fs : filesystem),
    (forall args, returncode (shell args) <> 0) ->
    value WHOAMI <= value a <= value NOT_A_VALID_INTEGER - 1 ->
    custom_command shell bytes_repr encode cmd
    = Ok (encode (bytes_repr (stderr (shell ("powershell.exe " ++ cmd)%string))))
    /\ (exists e, stock_command OS shell a = Raise e)
    /\ (exists e,
           Client.quic_event_received OS shell bytes_repr encode decode
             (StreamDataReceived stream_id data)
             (Client.mkClient (mkQuic (value a) lmd out) fs)
           = Raise e).
Proof.
  intros OS shell bytes_repr encode decode a cmd stream_id data lmd out fs
    Hfail Hrange.
  split; [apply custom_command_captures, Hfail|].
  destruct (stock_command_raises OS shell a Hfail) as [e He].
  split; [exists e; exact He|].
  unfold Client.quic_event_received.
  cbn [Client.quic remote_max_data Client.files]. rewrite int_to_enum_value.
  assert (Hk : (value a =? value CLIENT_KILL) = false
               /\ Actions_eqb a SERVER_FILE_SEND = false
               /\ Actions_eqb a SERVER_FILE_RECV = false
               /\ Actions_eqb a CUSTOM = false).
  { destruct (stock_range a Hrange) as [->|[->|[->|[->| ->]]]];
      repeat split; reflexivity. }
  destruct Hk as (-> & -> & -> & ->).
  destruct (decode data) as [text|e']; [|exists e'; reflexivity].
  cbn [bind]. unfold Client.server_data_of. cbn [split DELIMITER bind].
  rewrite He. exists e. reflexivity.
Qed.

(** A shell on which every command fails with status 1, and the signal
    [WHOAMI]. *)
Lemma stock_command_failure_escapes_witness :
  let shell := fun _ : string => mkCP 1 [] (list_byte_of_string "not found") in
  let bytes_repr := fun _ : bytes => "b'not found'" in
  let encode := list_byte_of_string in
  let decode := fun b : bytes => Ok (string_of_list_byte b) in
  (forall args, returncode (shell args) <> 0) /\
  value WHOAMI <= value WHOAMI <= value NOT_A_VALID_INTEGER - 1 /\
  custom_command shell bytes_repr encode "whoami"
  = Ok (encode (bytes_repr (stderr (shell "powershell.exe whoami")))) /\
  (exists e, stock_command "Linux" shell WHOAMI = Raise e) /\
  (exists e,
      Client.quic_event_received "Linux" shell bytes_repr encode decode
        (StreamDataReceived 4 (list_byte_of_string "***"))
        (Client.mkClient (mkQuic (value WHOAMI) 0 []) (fun _ => None))
      = Raise e).
Proof.
  intros shell bytes_repr encode decode.
  split; [intros args; discriminate|].
  split; [simpl; lia|].
  apply (stock_command_failure_escapes "Linux" shell bytes_repr encode decode
           WHOAMI "whoami" 4 (list_byte_of_string "***") 0 [] (fun _ => None)).
  - intros args. discriminate.
  - simpl. lia.
Defined.

End ClFunctionsFacts.

(** ** Undecodable signals on the server *)

Module ServerFacts.
Import Py Constants SharedFunctionality Dealer Transport Vocabulary.

Lemma int_to_enum_from_unmapped (v : Z) (items : list Actions) :
  (forall a, value a <> v) -> int_to_enum_from items v = NOT_A_VALID_INTEGER.
Proof.
  intros Hun. induction items as [|item items IH]; [reflexivity|].
  simpl. destruct (Z.eqb_spec v (value item)) as [E|E]; [|exact IH].
  exfalso. apply (Hun item). symmetry. exact E.
Qed.

(** C10. [int_to_enum] returns [NOT_A_VALID_INTEGER] for 9437184, the
    value of that very member, as it does for every integer that no member
    carries; and for each such signal value the server's
    [quic_event_received] takes the recovery path: it resets the signal
    field to [DEFAULT_MAX_DATA], arms [CLIENT_KILL] and sends an empty
    frame, leaving database and disk as they are. *)
Theorem sentinel_code_takes_recovery_path :
  forall (encode : string -> bytes) (decode : bytes -> result string)
         (now : float) (v : Z) (stream_id : Z) (data : bytes)
         (db : QuiC2Database) (lmd : Z) (out : list (Z * bytes))
         (fs : filesystem),
    v = 9437184 \/ (forall a, value a <> v) ->
    value NOT_A_VALID_INTEGER = 9437184 /\
    int_to_enum v = NOT_A_VALID_INTEGER /\
    Server.quic_event_received encode decode now
      (StreamDataReceived stream_id data)
      (Server.mkServer db (mkQuic v lmd out) fs)
    = Ok (Server.mkServer db
            (mkQuic DEFAULT_MAX_DATA (value CLIENT_KILL)
               (out ++ [(stream_id, [])]))
            fs).
Proof.
  intros encode decode now v stream_id data db lmd out fs Hv.
  assert (Hdec : int_to_enum v = NOT_A_VALID_INTEGER).
  { destruct Hv as [->|Hun]; [reflexivity|].
    apply int_to_enum_from_unmapped, Hun. }
  split; [reflexivity|]. split; [exact Hdec|].
  unfold Server.quic_event_received. cbn [Server.quic remote_max_data].
  rewrite Hdec. reflexivity.
Qed.

(** The sentinel's own code and an integer outside the enumeration. *)
Lemma sentinel_code_takes_recovery_path_witness :
  let st v := Server.mkServer (init blank) (mkQuic v 0 []) (fun _ => None) in
  let recovered :=
    Server.mkServer (init blank)
      (mkQuic DEFAULT_MAX_DATA (value CLIENT_KILL) [(4, [])]) (fun _ => None) in
  (9437184 = 9437184 \/ (forall a, value a <> 9437184)) /\
  value NOT_A_VALID_INTEGER = 9437184 /\
  int_to_enum 9437184 = NOT_A_VALID_INTEGER /\
  Server.quic_event_received list_byte_of_string
    (fun b => Ok (string_of_list_byte b)) 100%float
    (StreamDataReceived 4 []) (st 9437184)
  = Ok recovered.
Proof.
  intros st recovered.
  split; [left; reflexivity|].
  apply (sentinel_code_takes_recovery_path list_byte_of_string
           (fun b => Ok (string_of_list_byte b)) 100%float 9437184 4 []
           (init blank) 0 [] (fun _ => None)).
  left. reflexivity.
Defined.

End ServerFacts.

(** ** The transfer codec: chunking and reassembly *)

Module TransferFacts.
Import Py Constants SharedFunctionality Dealer Transport Vocabulary.

Opaque MAX_BYTES.

Lemma carries_cons stream_id chunk payload frames :
  (List.length chunk <= MAX_BYTES)%nat ->
  carries stream_id payload frames ->
  carries stream_id (chunk ++ payload) ((stream_id, chunk) :: frames).
Proof.
  intros Hlen [Hall Hcat]. split.
  - constructor; [split; [reflexivity|exact Hlen]|exact Hall].
  - simpl. rewrite Hcat. reflexivity.
Qed.

Lemma carries_nil stream_id : carries stream_id [] [].
Proof. split; [constructor|reflexivity]. Qed.

Lemma frames_since_app q frames rmd lmd :
  frames_since q (mkQuic rmd lmd (sent q ++ frames)) = frames.
Proof.
  unfold frames_since. cbn [sent].
  rewrite skipn_app, Nat.sub_diag, skipn_all. reflexivity.
Qed.

(** The response loop adds frames that carry what is left of the response
    from [i] on, and touches neither signal field. *)
Lemma send_response_frames stream_id response i q :
  (i <= List.length response)%nat ->
  exists frames,
    Client.send_response stream_id response i q
    = mkQuic (remote_max_data q) (local_max_data q) (sent q ++ frames)
    /\ carries stream_id (skipn i response) frames.
Proof.
  funelim (Client.send_response stream_id response i q); intros Hi.
  - (* another round *)
    match goal with
    | IH : _ -> ex _ |- _ => destruct (IH l) as (frames & Hsent & Hc)
    end.
    exists ((stream_id, slice response i (i + MAX_BYTES)) :: frames).
    split.
    + rewrite Hsent. cbn [send_stream_data remote_max_data local_max_data sent].
      rewrite <- app_assoc. reflexivity.
    + unfold slice. replace (i + MAX_BYTES - i)%nat with MAX_BYTES by lia.
      pose proof (carries_cons stream_id (firstn MAX_BYTES (skipn i response))
                    _ frames (firstn_le_length _ _) Hc) as Hcc.
      rewrite (Nat.add_comm i MAX_BYTES), <- skipn_skipn, firstn_skipn in Hcc.
      exact Hcc.
  - (* the last chunk *)
    exists [(stream_id, slice response i (i + MAX_BYTES))]. split; [reflexivity|].
    unfold slice. replace (i + MAX_BYTES - i)%nat with MAX_BYTES by lia.
    rewrite firstn_all2 by (rewrite length_skipn; lia).
    pose proof (carries_cons stream_id (skipn i response) [] []) as Hcc.
    rewrite app_nil_r in Hcc.
    apply Hcc; [rewrite length_skipn; lia|apply carries_nil].
Qed.

Lemma firstn_MAX_BYTES_nil (f : bytes) : firstn MAX_BYTES f = [] -> f = [].
Proof.
  pose proof MAX_BYTES_pos as Hpos. destruct MAX_BYTES; [lia|].
  destruct f; [reflexivity|discriminate].
Qed.

(** The server's file loop adds frames that carry the file. *)
Lemma server_send_file_frames stream_id f q :
  exists frames,
    Server.send_file stream_id f q
    = mkQuic (remote_max_data q) (local_max_data q) (sent q ++ frames)
    /\ carries stream_id f frames.
Proof.
  funelim (Server.send_file stream_id f q).
  - exists []. split; [rewrite app_nil_r; destruct q; reflexivity|].
    rewrite (firstn_MAX_BYTES_nil f e). apply carries_nil.
  - match goal with
    | IH : ex _ |- _ => destruct IH as (frames & Hsent & Hc)
    end.
    exists ((stream_id, b :: file_data) :: frames). split.
    + rewrite Hsent. cbn [send_stream_data remote_max_data local_max_data sent].
      rewrite <- app_assoc. reflexivity.
    + pose proof (carries_cons stream_id (firstn MAX_BYTES f) _ frames
                    (firstn_le_length _ _) Hc) as Hcc.
      rewrite firstn_skipn, e in Hcc. exact Hcc.
Qed.

(** The client's file loop does the same and arms [CLIENT_FILE_SEND]. *)
Lemma client_send_file_frames stream_id f q :
  exists frames,
    Client.send_file stream_id f q
    = mkQuic (remote_max_data q) (value CLIENT_FILE_SEND) (sent q ++ frames)
    /\ carries stream_id f frames.
Proof.
  funelim (Client.send_file stream_id f q).
  - exists []. split; [rewrite app_nil_r; destruct q; reflexivity|].
    rewrite (firstn_MAX_BYTES_nil f e). apply carries_nil.
  - match goal with
    | IH : ex _ |- _ => destruct IH as (frames & Hsent & Hc)
    end.
    exists ((stream_id, b :: file_data) :: frames). split.
    + rewrite Hsent.
      cbn [send_stream_data set_local_max_data remote_max_data local_max_data sent].
      rewrite <- app_assoc. reflexivity.
    + pose proof (carries_cons stream_id (firstn MAX_BYTES f) _ frames
                    (firstn_le_length _ _) Hc) as Hcc.
      rewrite firstn_skipn, e in Hcc. exact Hcc.
Qed.

Lemma content_append data fs :
  content (append_ab "temp" data fs) "temp" = content fs "temp" ++ data.
Proof.
  unfold content, append_ab. rewrite String.eqb_refl.
  destruct (fs "temp"); reflexivity.
Qed.

(** The server, while the signal is [CLIENT_FILE_SEND], appends every
    frame to its file. *)
Lemma server_appends encode decode now db q frames : forall fs,
  remote_max_data q = value CLIENT_FILE_SEND ->
  exists fs',
    receive_all (Server.quic_event_received encode decode now) frames
      (Server.mkServer db q fs)
    = Ok (Server.mkServer db q fs')
    /\ content fs' "temp" = content fs "temp" ++ List.concat (map snd frames).
Proof.
  induction frames as [|frame frames IH]; intros fs Hsig.
  - exists fs. split; [reflexivity|]. simpl. rewrite app_nil_r. reflexivity.
  - destruct (IH (append_ab "temp" (snd frame) fs) Hsig) as (fs' & Hrun & Hc).
    exists fs'. split.
    + cbn [receive_all]. unfold Server.quic_event_received at 1.
      cbn [Server.quic Server.DB_CON Server.files]. rewrite Hsig.
      change (int_to_enum (value CLIENT_FILE_SEND)) with CLIENT_FILE_SEND.
      cbn [Actions_eqb]. cbn [bind]. exact Hrun.
    + rewrite Hc, content_append. cbn [map List.concat].
      rewrite app_assoc. reflexivity.
Qed.

(** The client, while the signal is [SERVER_FILE_SEND], does the same. *)
Lemma client_appends OS shell bytes_repr encode decode q frames : forall fs,
  remote_max_data q = value SERVER_FILE_SEND ->
  exists fs',
    receive_all (Client.quic_event_received OS shell bytes_repr encode decode)
      frames (Client.mkClient q fs)
    = Ok (Client.mkClient q fs')
    /\ content fs' "temp" = content fs "temp" ++ List.concat (map snd frames).
Proof.
  induction frames as [|frame frames IH]; intros fs Hsig.
  - exists fs. split; [reflexivity|]. simpl. rewrite app_nil_r. reflexivity.
  - destruct (IH (append_ab "temp" (snd frame) fs) Hsig) as (fs' & Hrun & Hc).
    exists fs'. split.
    + cbn [receive_all]. unfold Client.quic_event_received at 1.
      cbn [Client.quic Client.files]. rewrite Hsig.
      change (int_to_enum (value SERVER_FILE_SEND)) with SERVER_FILE_SEND.
      change (value SERVER_FILE_SEND =? value CLIENT_KILL) with false.
      cbn [Actions_eqb]. cbn [bind]. exact Hrun.
    + rewrite Hc, content_append. cbn [map List.concat].
      rewrite app_assoc. reflexivity.
Qed.

(** C5. Each of the three chunking loops (a response on the client, a
    file on the client, a file on the server) hands the transport a
    sequence of frames of at most [MAX_BYTES] bytes each that covers the
    payload in order; and the receiving side, appending the frames in
    arrival order, ends with the payload behind whatever its file held
    before: the payload itself for a new file. *)
Theorem chunking_then_reassembly :
  forall (OS : string) (shell : string -> ClFunctions.CompletedProcess)
         (bytes_repr : bytes -> string) (encode : string -> bytes)
         (decode : bytes -> result string) (now : float)
         (payload : bytes) (stream_id : Z) (q : QuicConnection)
         (db : QuiC2Database) (lmd : Z) (out : list (Z * bytes))
         (fs : filesystem),
    carries stream_id payload
      (frames_since q (Client.send_response stream_id payload 0 q)) /\
    carries stream_id payload
      (frames_since q (Client.send_file stream_id payload q)) /\
    carries stream_id payload
      (frames_since q (Server.send_file stream_id payload q)) /\
    (forall frames, carries stream_id payload frames ->
       exists st',
         receive_all (Server.quic_event_received encode decode now) frames
           (Server.mkServer db (mkQuic (value CLIENT_FILE_SEND) lmd out) fs)
         = Ok st'
         /\ content (Server.files st') "temp" = content fs "temp" ++ payload) /\
    (forall frames, carries stream_id payload frames ->
       exists st',
         receive_all
           (Client.quic_event_received OS shell bytes_repr encode decode) frames
           (Client.mkClient (mkQuic (value SERVER_FILE_SEND) lmd out) fs)
         = Ok st'
         /\ content (Client.files st') "temp" = content fs "temp" ++ payload).
Proof.
  intros. repeat split.
  - destruct (send_response_frames stream_id payload 0 q (Nat.le_0_l _))
      as (frames & -> & Hc). rewrite frames_since_app. apply Hc.
  - destruct (send_response_frames stream_id payload 0 q (Nat.le_0_l _))
      as (frames & -> & Hc). rewrite frames_since_app. apply Hc.
  - destruct (client_send_file_frames stream_id payload q) as (frames & -> & Hc).
    rewrite frames_since_app. apply Hc.
  - destruct (client_send_file_frames stream_id payload q) as (frames & -> & Hc).
    rewrite frames_since_app. apply Hc.
  - destruct (server_send_file_frames stream_id payload q) as (frames & -> & Hc).
    rewrite frames_since_app. apply Hc.
  - destruct (server_send_file_frames stream_id payload q) as (frames & -> & Hc).
    rewrite frames_since_app. apply Hc.
  - intros frames [_ Hcat].
    destruct (server_appends encode decode now db
                (mkQuic (value CLIENT_FILE_SEND) lmd out) frames fs eq_refl)
      as (fs' & Hrun & Hc).
    eexists. split; [exact Hrun|]. rewrite <- Hcat. exact Hc.
  - intros frames [_ Hcat].
    destruct (client_appends OS shell bytes_repr encode decode
                (mkQuic (value SERVER_FILE_SEND) lmd out) frames fs eq_refl)
      as (fs' & Hrun & Hc).
    eexists. split; [exact Hrun|]. rewrite <- Hcat. exact Hc.
Qed.

Transparent MAX_BYTES.

(** A payload of 5 * MAX_BYTES + 37 bytes leaves the client's file loop as
    five full frames and one of 37 bytes, and the server writes it back
    byte for byte. *)
Example chunking_5M_plus_37 :
  let payload := repeat Byte.x2a (5 * MAX_BYTES + 37) in
  let frames :=
    frames_since (mkQuic 0 0 []) (Client.send_file 4 payload (mkQuic 0 0 [])) in
  map (fun fr => List.length (snd fr)) frames
  = [MAX_BYTES; MAX_BYTES; MAX_BYTES; MAX_BYTES; MAX_BYTES; 37%nat]
  /\ exists st',
      receive_all
        (Server.quic_event_received list_byte_of_string
           (fun b => Ok (string_of_list_byte b)) 100%float)
        frames
        (Server.mkServer (init blank)
           (mkQuic (value CLIENT_FILE_SEND) 0 []) (fun _ => None))
      = Ok st'
      /\ Server.files st' "temp" = Some payload.
Proof.
  split; [vm_compute; reflexivity|].
  eexists. split; vm_compute; reflexivity.
Qed.

End TransferFacts.

(** ** The transfer codec: delimiter framing of text items *)

Module FramingFacts.
Import Py Constants Transport Vocabulary.

Local Open Scope string_scope.

Lemma append_nil_r (s : string) : s ++ "" = s.
Proof. induction s as [|c t IH]; simpl; [reflexivity|now rewrite IH]. Qed.

Lemma append_assoc (a b c : string) : (a ++ b) ++ c = a ++ (b ++ c).
Proof. induction a as [|x t IH]; simpl; [reflexivity|now rewrite IH]. Qed.

Lemma length_lstrip (s : string) : (String.length (lstrip s) <= String.length s)%nat.
Proof.
  induction s as [|c t IH]; simpl; [lia|].
  destruct (isspace c); simpl; lia.
Qed.

Lemma length_rstrip (s : string) : (String.length (rstrip s) <= String.length s)%nat.
Proof.
  induction s as [|c t IH]; simpl; [lia|].
  destruct (rstrip t); [destruct (isspace c)|]; simpl in *; lia.
Qed.

(** A text that [strip] leaves alone is left alone by both halves. *)
Lemma strip_fixed (x : string) :
  strip x = x -> lstrip x = x /\ rstrip x = x.
Proof.
  intros H. assert (Hl : lstrip x = x).
  { destruct x as [|c t]; [reflexivity|]. simpl.
    destruct (isspace c) eqn:E; [|reflexivity]. exfalso.
    unfold strip in H. simpl in H. rewrite E in H.
    pose proof (length_rstrip (lstrip t)) as H1.
    pose proof (length_lstrip t) as H2.
    rewrite H in H1. simpl in H1. lia. }
  split; [exact Hl|]. unfold strip in H. rewrite Hl in H. exact H.
Qed.

Lemma lstrip_app (x y : string) :
  x <> "" -> lstrip x = x -> lstrip (x ++ y) = x ++ y.
Proof.
  destruct x as [|c t]; [congruence|]. intros _. simpl.
  destruct (isspace c) eqn:E; [|reflexivity].
  intros H. pose proof (length_lstrip t) as Hlen. rewrite H in Hlen.
  simpl in Hlen. lia.
Qed.

Lemma rstrip_app (x y : string) :
  y <> "" -> rstrip y = y -> rstrip (x ++ y) = x ++ y.
Proof.
  intros Hne Hy. induction x as [|c t IH]; simpl; [exact Hy|].
  rewrite IH. destruct (t ++ y) eqn:E; [|reflexivity].
  destruct t; simpl in E; [congruence|discriminate].
Qed.

Lemma strip_app (x y : string) :
  x <> "" -> lstrip x = x -> y <> "" -> rstrip y = y ->
  strip (x ++ y) = x ++ y.
Proof.
  intros Hx Hlx Hy Hry. unfold strip.
  rewrite (lstrip_app x y Hx Hlx). apply rstrip_app; assumption.
Qed.

(** *** Splitting *)

Lemma ends_with_tail c a t :
  ends_with c (String a t) = false -> ends_with c t = false.
Proof. destruct t; [reflexivity|]. simpl. intros H. exact H. Qed.

Lemma prefix_cons a s1 b s2 :
  prefix (String a s1) (String b s2) = Ascii.eqb a b && prefix s1 s2.
Proof.
  cbn [prefix]. destruct (ascii_dec a b) as [E|E];
    destruct (Ascii.eqb_spec a b); try contradiction; reflexivity.
Qed.

Lemma prefix_nil_l s : prefix "" s = true.
Proof. destruct s; reflexivity. Qed.

(** Inside an item that holds no delimiter and does not end in an
    asterisk, no delimiter starts, whatever follows the item's own
    delimiter. *)
Lemma no_delimiter_starts c t rest :
  prefix DELIMITER (String c t) = false ->
  ends_with "*" (String c t) = false ->
  prefix DELIMITER (String c t ++ DELIMITER ++ rest) = false.
Proof.
  unfold DELIMITER. cbn [append]. rewrite !prefix_cons.
  destruct (Ascii.eqb_spec "*" c) as [<-|]; [|reflexivity]. cbn [andb].
  destruct t as [|c2 t2].
  { intros _ H. vm_compute in H. discriminate H. }
  cbn [append]. rewrite !prefix_cons.
  destruct (Ascii.eqb_spec "*" c2) as [<-|]; [|reflexivity]. cbn [andb].
  destruct t2 as [|c3 t3].
  { intros _ H. vm_compute in H. discriminate H. }
  cbn [append]. rewrite !prefix_cons, !prefix_nil_l.
  destruct (Ascii.eqb_spec "*" c3) as [<-|]; [|reflexivity].
  intros H. discriminate H.
Qed.

(** Reading an item and the delimiter behind it closes one fragment. *)
Lemma split_item x : forall cur rest,
  contains DELIMITER x = false ->
  ends_with "*" x = false ->
  split_from DELIMITER 0 cur (x ++ DELIMITER ++ rest)
  = (cur ++ x) :: split_from DELIMITER 0 "" rest.
Proof.
  induction x as [|c t IH]; intros cur rest Hc He.
  - rewrite append_nil_r. unfold DELIMITER. cbn [append split_from].
    rewrite !prefix_cons, prefix_nil_l. reflexivity.
  - cbn [contains] in Hc. apply orb_false_elim in Hc. destruct Hc as [Hp Hc].
    pose proof (no_delimiter_starts c t rest Hp He) as Hno.
    change (String c t ++ DELIMITER ++ rest)
      with (String c (t ++ DELIMITER ++ rest)) in *.
    cbn [split_from]. rewrite Hno.
    rewrite (IH _ rest Hc (ends_with_tail _ _ _ He)).
    rewrite append_assoc. reflexivity.
Qed.

(** Reading a last item that no delimiter follows. *)
Lemma split_last x : forall cur,
  contains DELIMITER x = false ->
  split_from DELIMITER 0 cur x = [cur ++ x].
Proof.
  induction x as [|c t IH]; intros cur Hc.
  - rewrite append_nil_r. reflexivity.
  - cbn [contains] in Hc. apply orb_false_elim in Hc. destruct Hc as [Hp Hc].
    cbn [split_from]. rewrite Hp, (IH _ Hc), append_assoc. reflexivity.
Qed.

Lemma framable_parts x :
  framable x ->
  x <> "" /\ lstrip x = x /\ rstrip x = x /\ strip x = x
  /\ contains DELIMITER x = false /\ ends_with "*" x = false.
Proof.
  intros (Hne & Hs & Hc & He). destruct (strip_fixed x Hs) as [Hl Hr].
  repeat split; assumption.
Qed.

(** Items each followed by the delimiter split into the items and one
    empty fragment at the end. *)
Lemma split_framed items :
  Forall framable items ->
  split_from DELIMITER 0 "" (coalesce (map framed items)) = (items ++ [""])%list.
Proof.
  induction 1 as [|x items Hx _ IH]; [reflexivity|].
  apply framable_parts in Hx. destruct Hx as (_ & _ & _ & _ & Hc & He).
  cbn [map coalesce]. unfold framed at 1. rewrite append_assoc.
  rewrite (split_item x "" _ Hc He), IH. reflexivity.
Qed.

(** Items joined by the delimiter split into the items. *)
Lemma split_joined x items :
  Forall framable (x :: items) ->
  split_from DELIMITER 0 "" (join DELIMITER (x :: items)) = x :: items.
Proof.
  revert x. induction items as [|y items IH]; intros x Hall.
  - inversion Hall as [|? ? Hx _]; subst.
    apply framable_parts in Hx. destruct Hx as (_ & _ & _ & _ & Hc & _).
    cbn [join]. rewrite (split_last x "" Hc). reflexivity.
  - inversion Hall as [|? ? Hx Hrest]; subst.
    apply framable_parts in Hx. destruct Hx as (_ & _ & _ & _ & Hc & He).
    change (join DELIMITER (x :: y :: items))
      with (x ++ DELIMITER ++ join DELIMITER (y :: items)).
    rewrite (split_item x "" _ Hc He), (IH y Hrest). reflexivity.
Qed.

Lemma join_then_delimiter x items :
  join DELIMITER (x :: items) ++ DELIMITER = coalesce (map framed (x :: items)).
Proof.
  revert x. induction items as [|y items IH]; intros x.
  - cbn [join map coalesce]. unfold framed. rewrite append_nil_r. reflexivity.
  - change (join DELIMITER (x :: y :: items))
      with (x ++ DELIMITER ++ join DELIMITER (y :: items)).
    rewrite !append_assoc, IH. cbn [map coalesce]. unfold framed.
    rewrite !append_assoc. reflexivity.
Qed.

(** *** The whole receive side *)

Lemma strip_coalesced x items :
  Forall framable (x :: items) ->
  strip (coalesce (map framed (x :: items))) = coalesce (map framed (x :: items)).
Proof.
  intros Hall.
  assert (Hr : forall l : list string, l <> [] ->
             coalesce (map framed l) <> ""
             /\ rstrip (coalesce (map framed l)) = coalesce (map framed l)).
  { induction l as [|y l IH]; intros Hne; [congruence|].
    cbn [map coalesce]. split.
    - unfold framed. destruct y; discriminate.
    - destruct l as [|z l].
      + cbn [map coalesce]. rewrite append_nil_r. unfold framed.
        apply rstrip_app; [discriminate|reflexivity].
      + destruct IH as [Hne' Hfix]; [discriminate|].
        apply rstrip_app; assumption. }
  inversion Hall as [|? ? Hx _]; subst.
  apply framable_parts in Hx. destruct Hx as (Hne & Hl & _).
  destruct (Hr (x :: items)) as [Hne' Hfix]; [discriminate|].
  unfold strip. cbn [map coalesce] in *. unfold framed at 1 2.
  rewrite append_assoc, (lstrip_app x _ Hne Hl), <- append_assoc.
  exact Hfix.
Qed.

Lemma strip_joined x items :
  Forall framable (x :: items) ->
  strip (join DELIMITER (x :: items)) = join DELIMITER (x :: items).
Proof.
  intros Hall.
  assert (Hr : forall l y, Forall framable (y :: l) ->
             join DELIMITER (y :: l) <> ""
             /\ rstrip (join DELIMITER (y :: l)) = join DELIMITER (y :: l)).
  { induction l as [|z l IH]; intros y Hy.
    - inversion Hy as [|? ? Hf _]; subst. apply framable_parts in Hf.
      cbn [join]. tauto.
    - inversion Hy as [|? ? Hf Hrest]; subst.
      change (join DELIMITER (y :: z :: l))
        with (y ++ DELIMITER ++ join DELIMITER (z :: l)).
      destruct (IH z Hrest) as [Hne Hfix]. split.
      + apply framable_parts in Hf. destruct y; [tauto|discriminate].
      + rewrite <- append_assoc. apply rstrip_app; assumption. }
  destruct (Hr items x Hall) as [_ Hfix].
  inversion Hall as [|? ? Hx _]; subst.
  apply framable_parts in Hx. destruct Hx as (Hne & Hl & _).
  unfold strip. replace (lstrip (join DELIMITER (x :: items)))
    with (join DELIMITER (x :: items)); [exact Hfix|].
  destruct items as [|y items]; [symmetry; exact Hl|].
  change (join DELIMITER (x :: y :: items))
    with (x ++ DELIMITER ++ join DELIMITER (y :: items)).
  symmetry. apply lstrip_app; assumption.
Qed.

(** Dropping the empty fragments and stripping the others gives the items
    back. *)
Lemma keep_items items :
  Forall framable items ->
  map strip (filter (fun x => negb (String.eqb x "")) (items ++ [""])%list)
  = items
  /\ map strip (filter (fun x => negb (String.eqb x "")) items) = items.
Proof.
  induction 1 as [|x items Hx _ IH]; [split; reflexivity|].
  apply framable_parts in Hx. destruct Hx as (Hne & _ & _ & Hs & _).
  apply String.eqb_neq in Hne. destruct IH as [IH1 IH2].
  split; cbn [app filter]; rewrite Hne; cbn [negb map];
    rewrite Hs; [rewrite IH1|rewrite IH2]; reflexivity.
Qed.

Lemma server_data_of_split text :
  Client.server_data_of text
  = Ok (map strip
          (filter (fun x => negb (String.eqb x ""))
             (split_from DELIMITER 0 "" (strip text)))).
Proof. reflexivity. Qed.

(** C9 as stated fails: the custom command [dir *] followed by the
    delimiter is read back as the two items [dir] and [*]. *)
Lemma framing_asterisk_counterexample :
  ~ (forall items : list string,
        Forall (fun x => x <> "") items ->
        Client.server_data_of (join DELIMITER items) = Ok items /\
        Client.server_data_of (join DELIMITER items ++ DELIMITER) = Ok items).
Proof.
  intros H. destruct (H ["dir *"]) as [_ H2].
  - constructor; [discriminate|constructor].
  - vm_compute in H2. discriminate H2.
Qed.

(** C9, amended. For every sequence of text items that are not empty,
    carry no whitespace at either end, hold no delimiter and do not end in
    an asterisk, the client's receive side (strip, split on the delimiter,
    drop the empty fragments, strip each) recovers the items: from the
    items joined with the delimiter, from the same with one more delimiter
    at the end, and from the items each followed by the delimiter and
    merged into one message, which is what the server's dispatch of custom
    commands amounts to. *)
Theorem framing_recovers_items :
  forall items : list string,
    Forall framable items ->
    Client.server_data_of (join DELIMITER items) = Ok items /\
    Client.server_data_of (join DELIMITER items ++ DELIMITER) = Ok items /\
    Client.server_data_of (coalesce (map framed items)) = Ok items.
Proof.
  intros items Hall. rewrite !server_data_of_split.
  destruct items as [|x items]; [repeat split; reflexivity|].
  destruct (keep_items _ Hall) as [Hkeep1 Hkeep2].
  rewrite join_then_delimiter, strip_joined, strip_coalesced by exact Hall.
  rewrite split_joined, split_framed by exact Hall.
  rewrite Hkeep1, Hkeep2. repeat split; reflexivity.
Qed.

Lemma framable_abc : Forall framable ["a"; "b"; "c"].
Proof.
  repeat constructor; try discriminate; reflexivity.
Defined.

(** The items of the specification. *)
Lemma framing_recovers_items_witness :
  Forall framable ["a"; "b"; "c"] /\
  Client.server_data_of "a***b***c" = Ok ["a"; "b"; "c"] /\
  Client.server_data_of "a***b***c***" = Ok ["a"; "b"; "c"] /\
  Client.server_data_of (coalesce ["a***"; "b***"; "c***"]) = Ok ["a"; "b"; "c"].
Proof.
  split; [exact framable_abc|].
  exact (framing_recovers_items ["a"; "b"; "c"] framable_abc).
Defined.

(** What the server's dispatch loop sends for a batch of custom commands
    (items that [int] turns down): one frame per command, the command
    followed by the delimiter, under the signal [CUSTOM]. *)
Lemma dispatch_custom_frames encode stream_id items : forall q,
  Forall (fun cmd => exists e, int cmd = Raise e) items ->
  frames_since q (Server.dispatch encode stream_id items q)
  = map (fun cmd => (stream_id, encode (framed cmd))) items.
Proof.
  assert (Hgen : forall q,
             Forall (fun cmd => exists e, int cmd = Raise e) items ->
             sent (Server.dispatch encode stream_id items q)
             = (sent q ++ map (fun cmd => (stream_id, encode (framed cmd))) items)%list).
  { induction items as [|cmd items IH]; intros q Hall.
    - simpl. rewrite app_nil_r. reflexivity.
    - inversion Hall as [|? ? [e He] Hrest]; subst.
      cbn [Server.dispatch]. rewrite He, (IH _ Hrest).
      cbn [send_stream_data set_local_max_data sent map].
      rewrite <- app_assoc. reflexivity. }
  intros q Hall. unfold frames_since. rewrite (Hgen q Hall).
  rewrite skipn_app, Nat.sub_diag, skipn_all. reflexivity.
Qed.

End FramingFacts.

(* ===================================================================== *)
(** * Further properties of the sources *)
(* ===================================================================== *)

(** ** The action registry *)

Module ActionsFacts.
Import Py Constants SharedFunctionality Vocabulary.

Lemma all_members (a : Actions) : In a members.
Proof. destruct a; simpl; tauto. Qed.

(** What the loop of [int_to_enum] returns over the members still to be
    visited. *)
Lemma int_to_enum_from_result (items : list Actions) (v : Z) (a : Actions) :
  int_to_enum_from items v = a ->
  value a = v \/ (a = NOT_A_VALID_INTEGER /\ forall b, In b items -> value b <> v).
Proof.
  induction items as [|item items IH]; simpl.
  - intros <-. right. split; [reflexivity|]. intros b [].
  - destruct (Z.eqb_spec v (value item)) as [E|E].
    + intros <-. left. symmetry. exact E.
    + intros H. destruct (IH H) as [Hv|[Ha Hun]]; [left; exact Hv|].
      right. split; [exact Ha|]. intros b [<-|Hin]; [congruence|apply Hun, Hin].
Qed.

(** X1. [int_to_enum] is the inverse of [.value]: it returns the member
    whose value the integer is, and it returns [NOT_A_VALID_INTEGER]
    besides only for an integer that is no member's value. *)
Theorem int_to_enum_inverts_value :
  forall (v : Z) (a : Actions),
    int_to_enum v = a <->
    (value a = v \/ (a = NOT_A_VALID_INTEGER /\ forall b, value b <> v)).
Proof.
  intros v a. split.
  - intros H. destruct (int_to_enum_from_result members v a H) as [Hv|[Ha Hun]];
      [left; exact Hv|].
    right. split; [exact Ha|]. intros b. apply Hun, all_members.
  - intros [<-|[-> Hun]].
    + destruct a; reflexivity.
    + unfold int_to_enum. generalize members.
      induction l as [|item items IH]; [reflexivity|]. simpl.
      destruct (Z.eqb_spec v (value item)) as [E|E]; [|exact IH].
      exfalso. apply (Hun item). symmetry. exact E.
Qed.

End ActionsFacts.

(** ** The client registry over several calls *)

Module RegistryFacts.
Import Py Constants Dealer Vocabulary Scenarios PyFacts DealerFacts.

Local Open Scope list_scope.

Lemma registered_ids id now recs :
  forall x, In x (map fst (registered id now recs)) <->
            In x (map fst recs) \/ x = id.
Proof.
  intros x. unfold registered.
  destruct (existsb (Z.eqb id) (map fst recs)) eqn:E.
  - split; [tauto|]. intros [H| ->]; [exact H|].
    apply existsb_exists in E. destruct E as (y & Hin & Hy).
    apply Z.eqb_eq in Hy. subst y. exact Hin.
  - rewrite map_app, in_app_iff. simpl. intuition.
Qed.

Lemma registered_nodup id now recs :
  NoDup (map fst recs) -> NoDup (map fst (registered id now recs)).
Proof.
  intros Hnd. unfold registered.
  destruct (existsb (Z.eqb id) (map fst recs)) eqn:E; [exact Hnd|].
  rewrite map_app. simpl.
  apply NoDup_app; [exact Hnd| |].
  - apply NoDup_cons; [simpl; tauto|apply NoDup_nil].
  - intros x Hin [<-|[]]. rewrite (existsb_eqb_true _ _ Hin) in E. discriminate.
Qed.

Lemma roster_snoc arrivals arrival :
  roster (arrivals ++ [arrival])
  = registered (fst arrival) (snd arrival) (roster arrivals).
Proof. unfold roster. rewrite fold_left_app. reflexivity. Qed.

Lemma roster_ids arrivals :
  forall id, In id (map fst (roster arrivals)) <-> In id (map fst arrivals).
Proof.
  induction arrivals as [|arrival arrivals IH] using rev_ind; intros id.
  - simpl. tauto.
  - rewrite roster_snoc, registered_ids, map_app, in_app_iff, IH. simpl.
    intuition.
Qed.

Lemma roster_nodup arrivals : NoDup (map fst (roster arrivals)).
Proof.
  induction arrivals as [|arrival arrivals IH] using rev_ind.
  - constructor.
  - rewrite roster_snoc. apply registered_nodup, IH.
Qed.

(** A record of the roster is the first hello of its client. *)
Lemma roster_first_hello arrivals :
  forall id t, In (id, t) (roster arrivals) ->
    exists pre post,
      arrivals = pre ++ (id, t) :: post /\ ~ In id (map fst pre).
Proof.
  induction arrivals as [|arrival arrivals IH] using rev_ind; intros id t Hin.
  - destruct Hin.
  - destruct arrival as [i n].
    rewrite roster_snoc in Hin. unfold registered in Hin. cbn [fst snd] in Hin.
    assert (Hold : In (id, t) (roster arrivals) ->
                   exists pre post,
                     arrivals ++ [(i, n)] = pre ++ (id, t) :: post
                     /\ ~ In id (map fst pre)).
    { intros H. destruct (IH id t H) as (pre & post & -> & Hpre).
      exists pre, (post ++ [(i, n)]). split; [|exact Hpre].
      rewrite <- app_assoc. reflexivity. }
    destruct (existsb (Z.eqb i) (map fst (roster arrivals))) eqn:E;
      [exact (Hold Hin)|].
    apply in_app_or in Hin. destruct Hin as [Hin|[Heq|[]]]; [exact (Hold Hin)|].
    inversion Heq; subst i n.
    exists arrivals, []. split; [reflexivity|].
    intros Hid. apply roster_ids in Hid.
    rewrite (existsb_eqb_true _ _ Hid) in E. discriminate E.
Qed.

Lemma register_all_rows arrivals : forall db recs,
  alive_clients db = Some (registry_rows recs) ->
  register_all arrivals db
  = Ok (set_alive_clients
          (Some (registry_rows
                   (fold_left
                      (fun recs arrival =>
                         registered (fst arrival) (snd arrival) recs)
                      arrivals recs)))
          db).
Proof.
  induction arrivals as [|arrival arrivals IH]; intros db recs Hrows.
  - simpl. rewrite <- Hrows. destruct db; reflexivity.
  - cbn [register_all fold_left].
    rewrite (ServerCommsFacts.register_on_hello db recs _ _ Hrows). cbn [bind].
    rewrite (IH _ (registered (fst arrival) (snd arrival) recs)) by reflexivity.
    reflexivity.
Qed.

(** X2. After any run of hellos on an empty registry the registry holds
    one record per client that said hello, in the order of the first
    hellos and with the time of the first hello of each: a later hello of
    a known client changes nothing, and [sel_all_alive] lists the
    identifiers in that order without an error. *)
Theorem registry_keeps_first_hello :
  forall (arrivals : list (Z * float)) (c s r : table string),
    exists db',
      register_all arrivals (mkDB (Some []) c s r) = Ok db' /\
      alive_clients db' = Some (registry_rows (roster arrivals)) /\
      sel_all_alive db' = (map str (map fst (roster arrivals)), false) /\
      NoDup (map fst (roster arrivals)) /\
      (forall id, In id (map fst (roster arrivals)) <-> In id (map fst arrivals)) /\
      (forall id t, In (id, t) (roster arrivals) ->
         exists pre post,
           arrivals = pre ++ (id, t) :: post /\ ~ In id (map fst pre)).
Proof.
  intros arrivals c s r. eexists.
  split; [apply (register_all_rows arrivals _ []); reflexivity|].
  split; [reflexivity|].
  split.
  { unfold sel_all_alive. cbn [alive_clients set_alive_clients].
    unfold registry_rows. rewrite !map_map. reflexivity. }
  split; [apply roster_nodup|].
  split; [apply roster_ids|apply roster_first_hello].
Qed.

(** *** Removal *)

Lemma delete_where_registry id recs :
  delete_where (str id) (registry_rows recs) = registry_rows (without id recs).
Proof.
  unfold delete_where, without, registry_rows.
  induction recs as [|rec recs IH]; [reflexivity|]. simpl.
  rewrite str_eqb. destruct (fst rec =? id); simpl; rewrite IH; reflexivity.
Qed.

Lemma without_absent id recs : ~ In id (map fst (without id recs)).
Proof.
  unfold without. intros Hin. apply in_map_iff in Hin.
  destruct Hin as (rec & Hfst & Hin). apply filter_In in Hin.
  destruct Hin as [_ Hne]. rewrite Hfst, Z.eqb_refl in Hne. discriminate Hne.
Qed.

(** X3. [del_stream_id] removes the record of the client and no other
    record, and touches no mailbox table; the client can then register
    again, and the new record, now the last of the registry, carries the
    time of that call. *)
Theorem remove_then_register_renews :
  forall (db : QuiC2Database) (recs : list (Z * float)) (id : Z) (later : float),
    alive_clients db = Some (registry_rows recs) ->
    let db1 := set_alive_clients (Some (registry_rows (without id recs))) db in
    del_stream_id id db = (db1, true) /\
    insert_new_stream_id later id db1
    = Ok (set_alive_clients
            (Some (registry_rows (without id recs ++ [(id, later)]))) db,
          true).
Proof.
  intros db recs id later Hrows db1. split.
  - unfold del_stream_id, del_stream_id_key. rewrite Hrows, delete_where_registry.
    reflexivity.
  - apply (register_new db1 (without id recs) id later); [reflexivity|].
    apply without_absent.
Qed.

Lemma remove_then_register_renews_witness :
  let db := set_alive_clients (Some (registry_rows [(4, 100%float); (8, 101%float)]))
              (init blank) in
  alive_clients db = Some (registry_rows [(4, 100%float); (8, 101%float)]) /\
  del_stream_id 4 db
  = (set_alive_clients (Some (registry_rows [(8, 101%float)])) db, true) /\
  insert_new_stream_id 200%float 4
    (set_alive_clients (Some (registry_rows [(8, 101%float)])) db)
  = Ok (set_alive_clients
          (Some (registry_rows [(8, 101%float); (4, 200%float)])) db, true).
Proof.
  split; [reflexivity|].
  exact (remove_then_register_renews
           (set_alive_clients
              (Some (registry_rows [(4, 100%float); (8, 101%float)])) (init blank))
           [(4, 100%float); (8, 101%float)] 4 200%float eq_refl).
Defined.

End RegistryFacts.

(** ** The server's event handler beyond the hello reply *)

Module ServerHandlerFacts.
Import Py Constants SharedFunctionality Dealer ServerComms Transport.
Import Vocabulary Scenarios PyFacts DealerFacts RegistryFacts.

Local Open Scope list_scope.

Lemma listed_registry id recs :
  existsb (String.eqb (str id)) (map (fun row => fst row) (registry_rows recs))
  = existsb (Z.eqb id) (map fst recs).
Proof.
  induction recs as [|rec recs IH]; [reflexivity|]. simpl.
  rewrite str_eqb, IH. reflexivity.
Qed.

Lemma without_unlisted id recs :
  existsb (Z.eqb id) (map fst recs) = false -> without id recs = recs.
Proof.
  unfold without. induction recs as [|rec recs IH]; [reflexivity|]. simpl.
  intros H. apply orb_false_elim in H. destruct H as [Hne Hrest].
  rewrite Z.eqb_sym, Hne. simpl. rewrite (IH Hrest). reflexivity.
Qed.

(** X4. A disconnect with the reason [terminate] removes the record of the
    client named by the error code, and nothing else; a disconnect with
    any other reason leaves the server as it is.  The close that the
    client's [perform_connect] sends with [kill] is of the first kind, for
    its own identifier. *)
Theorem terminate_removes_the_client :
  forall (encode : string -> bytes) (decode : bytes -> result string)
         (now : float) (db : QuiC2Database) (recs : list (Z * float))
         (q cq : QuicConnection) (fs : filesystem)
         (id code : Z) (reason : string),
    alive_clients db = Some (registry_rows recs) ->
    Server.quic_event_received encode decode now
      (ConnectionTerminated code reason) (Server.mkServer db q fs)
    = Ok (Server.mkServer
            (if String.eqb reason "terminate"
             then set_alive_clients (Some (registry_rows (without code recs))) db
             else db)
            q fs)
    /\ snd (ClientProcess.perform_connect id true cq) = Some (id, "terminate").
Proof.
  intros encode decode now db recs q cq fs id code reason Hrows.
  split; [|reflexivity].
  unfold Server.quic_event_received. cbn [Server.DB_CON Server.quic Server.files].
  destruct (String.eqb reason "terminate"); [|reflexivity].
  unfold sel_all_alive. rewrite Hrows, listed_registry.
  destruct (existsb (Z.eqb code) (map fst recs)) eqn:E.
  - unfold del_stream_id, del_stream_id_key.
    rewrite Hrows, delete_where_registry. reflexivity.
  - rewrite (without_unlisted _ _ E), <- Hrows. destruct db; reflexivity.
Qed.

Lemma terminate_removes_the_client_witness :
  let db := set_alive_clients
              (Some (registry_rows [(4, 100%float); (8, 101%float)]))
              (init blank) in
  alive_clients db = Some (registry_rows [(4, 100%float); (8, 101%float)]) /\
  Server.quic_event_received list_byte_of_string
    (fun b => Ok (string_of_list_byte b)) 200%float
    (ConnectionTerminated 4 "terminate")
    (Server.mkServer db (mkQuic 0 0 []) (fun _ => None))
  = Ok (Server.mkServer
          (set_alive_clients (Some (registry_rows [(8, 101%float)])) db)
          (mkQuic 0 0 []) (fun _ => None))
  /\ snd (ClientProcess.perform_connect 4 true (mkQuic 0 0 []))
     = Some (4, "terminate").
Proof.
  split; [reflexivity|].
  exact (terminate_removes_the_client list_byte_of_string
           (fun b => Ok (string_of_list_byte b)) 200%float
           (set_alive_clients
              (Some (registry_rows [(4, 100%float); (8, 101%float)]))
              (init blank))
           [(4, 100%float); (8, 101%float)] (mkQuic 0 0 []) (mkQuic 0 0 [])
           (fun _ => None) 4 4 "terminate" eq_refl).
Defined.

(** X5. For a signal that is neither a hello, nor a file frame, nor
    undecodable, the server registers the sender and does nothing else: it
    sends no frame, changes no signal field, reads no mailbox table and
    writes no file.  Only a [CLIENT_RESPONSE] whose payload does not
    decode makes the handler raise. *)
Theorem server_is_silent_on_reports :
  forall (encode : string -> bytes) (decode : bytes -> result string)
         (now : float) (db : QuiC2Database) (recs : list (Z * float))
         (a : Actions) (lmd : Z) (out : list (Z * bytes)) (fs : filesystem)
         (id : Z) (data : bytes),
    alive_clients db = Some (registry_rows recs) ->
    a <> CLIENT_HELLO -> a <> NOT_A_VALID_INTEGER -> a <> CLIENT_FILE_SEND ->
    Server.quic_event_received encode decode now (StreamDataReceived id data)
      (Server.mkServer db (mkQuic (value a) lmd out) fs)
    = match (if Actions_eqb a CLIENT_RESPONSE then decode data else Ok "") with
      | Ok _ =>
          Ok (Server.mkServer
                (set_alive_clients
                   (Some (registry_rows (registered id now recs))) db)
                (mkQuic (value a) lmd out) fs)
      | Raise e => Raise e
      end.
Proof.
  intros encode decode now db recs a lmd out fs id data Hrows H1 H2 H3.
  unfold Server.quic_event_received.
  cbn [Server.DB_CON Server.quic Server.files remote_max_data].
  rewrite (ClFunctionsFacts.int_to_enum_value a).
  destruct a; try congruence;
    cbn [Actions_eqb value Z.eqb Pos.eqb]; unfold respond_to_sdr;
    rewrite (ServerCommsFacts.register_on_hello db recs id now Hrows);
    cbn [bind Server.dispatch]; reflexivity.
Qed.

Lemma server_is_silent_on_reports_witness :
  let db := init blank in
  alive_clients db = Some (registry_rows []) /\
  FILE_NOT_FOUND <> CLIENT_HELLO /\ FILE_NOT_FOUND <> NOT_A_VALID_INTEGER /\
  FILE_NOT_FOUND <> CLIENT_FILE_SEND /\
  Server.quic_event_received list_byte_of_string
    (fun b => Ok (string_of_list_byte b)) 100%float
    (StreamDataReceived 4 (list_byte_of_string "error"))
    (Server.mkServer db (mkQuic (value FILE_NOT_FOUND) 7 []) (fun _ => None))
  = Ok (Server.mkServer
          (set_alive_clients (Some (registry_rows [(4, 100%float)])) db)
          (mkQuic (value FILE_NOT_FOUND) 7 []) (fun _ => None)).
Proof.
  split; [reflexivity|].
  split; [discriminate|]. split; [discriminate|]. split; [discriminate|].
  apply (server_is_silent_on_reports list_byte_of_string
           (fun b => Ok (string_of_list_byte b)) 100%float (init blank) []
           FILE_NOT_FOUND 7 [] (fun _ => None) 4 (list_byte_of_string "error"));
    try reflexivity; discriminate.
Defined.

(** *** What a hello consumes *)

Lemma queued_some {A : Type} id (t : table A) x xs :
  queued id t = x :: xs ->
  exists rows, t = Some rows /\ map snd (select_where (str id) rows) = x :: xs.
Proof.
  destruct t as [rows|]; simpl; [|discriminate]. intros H. exists rows. tauto.
Qed.

Lemma queued_after_delete {A : Type} id id' (rows : list (string * A)) :
  queued id' (Some (delete_where (str id) rows))
  = if id' =? id then [] else queued id' (Some rows).
Proof.
  unfold queued. destruct (Z.eqb_spec id' id) as [->|Hne].
  - rewrite select_after_delete. reflexivity.
  - rewrite select_other_after_delete; [reflexivity|].
    intros E. apply Hne, str_inj, E.
Qed.

(** X6. A hello of a client with pending commands hands out all of them
    with [SERVER_SEES_HELLO] and deletes them, so that the next hello
    cannot hand them out again; the commands of other clients and both
    file queues, also those of the same client, stay as they were. *)
Theorem hello_hands_commands_once :
  forall (now : float) (db : QuiC2Database) (recs : list (Z * float))
         (id : Z) (cmd : string) (cmds : list string),
    alive_clients db = Some (registry_rows recs) ->
    queued id (cmd_pool db) = cmd :: cmds ->
    exists db',
      respond_to_sdr now db id CLIENT_HELLO
      = Ok (db', (SERVER_SEES_HELLO, cmd :: cmds)) /\
      queued id (cmd_pool db') = [] /\
      (forall id', id' <> id ->
         queued id' (cmd_pool db') = queued id' (cmd_pool db)) /\
      files_send db' = files_send db /\ files_recv db' = files_recv db.
Proof.
  intros now db recs id cmd cmds Hrows Hq.
  destruct (queued_some id _ _ _ Hq) as (rows & Hpool & Hsel).
  unfold respond_to_sdr.
  rewrite (ServerCommsFacts.register_on_hello db recs id now Hrows). cbn [bind].
  rewrite (sel_and_del_cmd_rows id _ rows) by exact Hpool. rewrite Hsel.
  cbn [List.length Nat.eqb negb andb].
  eexists. split; [reflexivity|].
  cbn [cmd_pool files_send files_recv set_cmd_pool set_alive_clients].
  split; [|split; [|split; reflexivity]].
  - rewrite queued_after_delete, Z.eqb_refl. reflexivity.
  - intros id' Hne. rewrite queued_after_delete, Hpool.
    destruct (Z.eqb_spec id' id); [contradiction|reflexivity].
Qed.

Lemma hello_hands_commands_once_witness :
  let db := set_cmd_pool (Some [(str 4, "2411724"); (str 8, "dir"); (str 4, "dir c:")])
              (set_files_send (Some [(str 4, "a.txt")]) (init blank)) in
  alive_clients db = Some (registry_rows []) /\
  queued 4 (cmd_pool db) = ["2411724"; "dir c:"] /\
  exists db',
    respond_to_sdr 100%float db 4 CLIENT_HELLO
    = Ok (db', (SERVER_SEES_HELLO, ["2411724"; "dir c:"])) /\
    queued 4 (cmd_pool db') = [] /\
    (forall id', id' <> 4 ->
       queued id' (cmd_pool db') = queued id' (cmd_pool db)) /\
    files_send db' = files_send db /\ files_recv db' = files_recv db.
Proof.
  split; [reflexivity|]. split; [reflexivity|].
  exact (hello_hands_commands_once 100%float
           (set_cmd_pool (Some [(str 4, "2411724"); (str 8, "dir"); (str 4, "dir c:")])
              (set_files_send (Some [(str 4, "a.txt")]) (init blank)))
           [] 4 "2411724" ["dir c:"] eq_refl eq_refl).
Defined.

End ServerHandlerFacts.

(** ** File transfers from the hello to the last frame *)

Module FileTransferFacts.
Import Py Constants SharedFunctionality Dealer ServerComms Transport.
Import Vocabulary Scenarios PyFacts DealerFacts ServerCommsFacts.
Import TransferFacts FramingFacts ServerHandlerFacts.

Local Open Scope list_scope.

Lemma served_name (filename : string) (err : bool) (f : string) :
  (if negb err && negb (String.eqb filename "") then Some filename else None)
  = Some f ->
  negb err && negb (String.eqb filename "") = true /\ filename = f.
Proof.
  destruct (negb err && negb (String.eqb filename "")); [|discriminate].
  intros H. inversion H. split; reflexivity.
Qed.

Lemma not_served (filename : string) (err : bool) :
  (if negb err && negb (String.eqb filename "") then Some filename else None)
  = None ->
  negb err && negb (String.eqb filename "") = false.
Proof.
  destruct (negb err && negb (String.eqb filename "")); [discriminate|reflexivity].
Qed.

Lemma files_send_emptied id db db' filename err :
  sel_and_del_file_send id db = (db', (filename, err)) ->
  err = false -> queued id (files_send db') = [].
Proof.
  unfold sel_and_del_file_send. destruct (files_send db) as [rows|] eqn:E;
    intros H Herr; inversion H; subst; [|discriminate].
  cbn [files_send set_files_send].
  rewrite queued_after_delete, Z.eqb_refl. reflexivity.
Qed.

(** The hello of a client without commands whose oldest outbound name is
    [f]. *)
Lemma hello_serves_outbound now db recs id f :
  alive_clients db = Some (registry_rows recs) ->
  queued id (cmd_pool db) = [] ->
  oldest_name (queued id (files_send db)) = Some f ->
  exists db',
    respond_to_sdr now db id CLIENT_HELLO = Ok (db', (SERVER_FILE_SEND, [f])) /\
    queued id (files_send db') = [] /\
    files_recv db' = files_recv db /\
    alive_clients db' = Some (registry_rows (registered id now recs)).
Proof.
  intros Hrows Hcmds Hname.
  unfold respond_to_sdr. rewrite (register_on_hello db recs id now Hrows).
  cbn [bind]. set (db1 := set_alive_clients _ db).
  assert (Ha1 : alive_clients db1 = Some (registry_rows (registered id now recs)))
    by reflexivity.
  change (cmd_pool db) with (cmd_pool db1) in Hcmds.
  change (files_send db) with (files_send db1) in Hname.
  change (files_recv db) with (files_recv db1).
  clearbody db1.
  destruct (sel_and_del_cmd id db1) as [db2 [cmds err]] eqn:E2.
  apply sel_and_del_cmd_reads in E2.
  destruct E2 as (Hc & _ & Ha2 & Hs2 & Hr2). rewrite Hcmds in Hc. subst cmds.
  cbn [List.length Nat.eqb negb]. rewrite andb_false_r.
  destruct (sel_and_del_file_send id db2) as [db3 [file_send err3]] eqn:E3.
  pose proof (sel_and_del_file_send_reads _ _ _ _ _ E3) as (Hserved & Ha3 & Hr3).
  rewrite Hs2, Hname in Hserved. apply served_name in Hserved.
  destruct Hserved as [Hcond ->]. rewrite Hcond.
  exists db3. split; [reflexivity|].
  split; [|split; congruence].
  apply (files_send_emptied id db2 db3 f err3 E3).
  destruct err3; [discriminate Hcond|reflexivity].
Qed.

(** The hello of a client without commands and without a servable
    outbound name whose oldest inbound name is [f]. *)
Lemma hello_serves_inbound now db recs id f :
  alive_clients db = Some (registry_rows recs) ->
  queued id (cmd_pool db) = [] ->
  oldest_name (queued id (files_send db)) = None ->
  oldest_name (queued id (files_recv db)) = Some f ->
  exists db',
    respond_to_sdr now db id CLIENT_HELLO = Ok (db', (SERVER_FILE_RECV, [f])) /\
    alive_clients db' = Some (registry_rows (registered id now recs)).
Proof.
  intros Hrows Hcmds Hout Hname.
  unfold respond_to_sdr. rewrite (register_on_hello db recs id now Hrows).
  cbn [bind]. set (db1 := set_alive_clients _ db).
  assert (Ha1 : alive_clients db1 = Some (registry_rows (registered id now recs)))
    by reflexivity.
  change (cmd_pool db) with (cmd_pool db1) in Hcmds.
  change (files_send db) with (files_send db1) in Hout.
  change (files_recv db) with (files_recv db1) in Hname.
  clearbody db1.
  destruct (sel_and_del_cmd id db1) as [db2 [cmds err]] eqn:E2.
  apply sel_and_del_cmd_reads in E2.
  destruct E2 as (Hc & _ & Ha2 & Hs2 & Hr2). rewrite Hcmds in Hc. subst cmds.
  cbn [List.length Nat.eqb negb]. rewrite andb_false_r.
  destruct (sel_and_del_file_send id db2) as [db3 [file_send err3]] eqn:E3.
  apply sel_and_del_file_send_reads in E3. destruct E3 as (Hserved & Ha3 & Hr3).
  rewrite Hs2, Hout in Hserved. rewrite (not_served _ _ Hserved).
  destruct (sel_and_del_file_recv id db3) as [db4 [file_recv err4]] eqn:E4.
  apply sel_and_del_file_recv_reads in E4. destruct E4 as (Hserved4 & Ha4).
  rewrite Hr3, Hr2, Hname in Hserved4. apply served_name in Hserved4.
  destruct Hserved4 as [Hcond ->]. rewrite Hcond.
  exists db4. split; [reflexivity|congruence].
Qed.

(** X7. A download from the hello to the last frame.  When the client has
    no pending command, its oldest outbound name is [f] and the server's
    disk holds [f], the server answers the hello by arming
    [SERVER_FILE_SEND] and sending the file in frames of at most
    [MAX_BYTES] bytes, and it empties the client's outbound queue; the
    client, reading that signal, appends the frames to its file, which
    ends with the bytes of [f]. *)
Theorem download_reaches_the_client :
  forall (OS : string) (shell : string -> ClFunctions.CompletedProcess)
         (bytes_repr : bytes -> string) (encode : string -> bytes)
         (decode : bytes -> result string) (now : float)
         (db : QuiC2Database) (recs : list (Z * float)) (id : Z)
         (f : string) (body hello : bytes)
         (lmd clmd : Z) (out cout : list (Z * bytes))
         (server_files client_files : filesystem),
    alive_clients db = Some (registry_rows recs) ->
    queued id (cmd_pool db) = [] ->
    oldest_name (queued id (files_send db)) = Some f ->
    server_files f = Some body ->
    exists db' frames client',
      Server.quic_event_received encode decode now (StreamDataReceived id hello)
        (Server.mkServer db (mkQuic (value CLIENT_HELLO) lmd out) server_files)
      = Ok (Server.mkServer db'
              (mkQuic (value CLIENT_HELLO) (value SERVER_FILE_SEND) (out ++ frames))
              server_files)
      /\ carries id body frames
      /\ queued id (files_send db') = []
      /\ receive_all
           (Client.quic_event_received OS shell bytes_repr encode decode) frames
           (Client.mkClient (mkQuic (value SERVER_FILE_SEND) clmd cout)
              client_files)
         = Ok client'
      /\ content (Client.files client') "temp"
         = content client_files "temp" ++ body.
Proof.
  intros OS shell bytes_repr encode decode now db recs id f body hello lmd clmd
    out cout server_files client_files Hrows Hcmds Hname Hfile.
  destruct (hello_serves_outbound now db recs id f Hrows Hcmds Hname)
    as (db' & Hreply & Hempty & _ & _).
  destruct (server_send_file_frames id body
              (set_local_max_data (value SERVER_FILE_SEND)
                 (mkQuic (value CLIENT_HELLO) lmd out)))
    as (frames & Hsent & Hcarries).
  destruct (client_appends OS shell bytes_repr encode decode
              (mkQuic (value SERVER_FILE_SEND) clmd cout) frames client_files
              eq_refl) as (fs' & Hrun & Hcontent).
  exists db', frames, (Client.mkClient (mkQuic (value SERVER_FILE_SEND) clmd cout) fs').
  split; [|split; [exact Hcarries|split; [exact Hempty|split; [exact Hrun|]]]].
  - unfold Server.quic_event_received.
    cbn [Server.DB_CON Server.quic Server.files remote_max_data].
    change (int_to_enum (value CLIENT_HELLO)) with CLIENT_HELLO.
    cbn [Actions_eqb value Z.eqb Pos.eqb].
    rewrite Hreply. cbn [bind Server.first_item]. unfold open_rb.
    rewrite Hfile. cbn [bind].
    apply (f_equal (fun q => Ok (Server.mkServer db' q server_files))).
    exact Hsent.
  - destruct Hcarries as [_ <-]. exact Hcontent.
Qed.

Lemma download_reaches_the_client_witness :
  let db := set_files_send (Some [(str 12345, "secret.txt")]) (init blank) in
  let disk := fun n : string =>
    if String.eqb n "secret.txt" then Some (list_byte_of_string "abc") else None in
  alive_clients db = Some (registry_rows []) /\
  queued 12345 (cmd_pool db) = [] /\
  oldest_name (queued 12345 (files_send db)) = Some "secret.txt" /\
  disk "secret.txt" = Some (list_byte_of_string "abc") /\
  exists db' frames client',
    Server.quic_event_received list_byte_of_string
      (fun b => Ok (string_of_list_byte b)) 100%float
      (StreamDataReceived 12345 (list_byte_of_string "Hello!"))
      (Server.mkServer db (mkQuic (value CLIENT_HELLO) 0 []) disk)
    = Ok (Server.mkServer db'
            (mkQuic (value CLIENT_HELLO) (value SERVER_FILE_SEND) ([] ++ frames))
            disk)
    /\ carries 12345 (list_byte_of_string "abc") frames
    /\ queued 12345 (files_send db') = []
    /\ receive_all
         (Client.quic_event_received "Linux"
            (fun _ => ClFunctions.mkCP 0 [] []) (fun _ => "")
            list_byte_of_string (fun b => Ok (string_of_list_byte b)))
         frames
         (Client.mkClient (mkQuic (value SERVER_FILE_SEND) 0 []) (fun _ => None))
       = Ok client'
    /\ content (Client.files client') "temp"
       = content (fun _ => None) "temp" ++ list_byte_of_string "abc".
Proof.
  intros db disk. repeat (split; [reflexivity|]).
  exact (download_reaches_the_client "Linux"
           (fun _ => ClFunctions.mkCP 0 [] []) (fun _ => "")
           list_byte_of_string (fun b => Ok (string_of_list_byte b)) 100%float
           db [] 12345 "secret.txt" (list_byte_of_string "abc")
           (list_byte_of_string "Hello!") 0 0 [] [] disk (fun _ => None)
           eq_refl eq_refl eq_refl eq_refl).
Defined.

(** The client reads one framed name back as that name. *)
Lemma server_data_of_framed f :
  framable f -> Client.server_data_of (framed f) = Ok [f].
Proof.
  intros Hf. assert (Hall : Forall framable [f]) by (constructor; [exact Hf|constructor]).
  rewrite <- (append_nil_r (framed f)).
  change (framed f ++ "")%string with (coalesce (map framed [f])).
  rewrite server_data_of_split, (strip_coalesced f [] Hall), (split_framed [f] Hall).
  destruct (keep_items [f] Hall) as [Hkeep _]. rewrite Hkeep. reflexivity.
Qed.

(** X8. An upload from the hello to the last frame.  When the client has
    no pending command and no servable outbound name and its oldest
    inbound name is [f], a name that delimiter framing carries unchanged,
    the server answers the hello by arming [SERVER_FILE_RECV], sending the
    name followed by the delimiter and resetting its signal field to
    [DEFAULT_MAX_DATA]; the client reads the name back, arms
    [CLIENT_FILE_SEND] and sends its file [f] in frames of at most
    [MAX_BYTES] bytes; and the server, reading that signal, appends the
    frames to its file, which ends with the bytes of [f]. *)
Theorem upload_reaches_the_server :
  forall (OS : string) (shell : string -> ClFunctions.CompletedProcess)
         (bytes_repr : bytes -> string) (encode : string -> bytes)
         (decode : bytes -> result string) (now later : float)
         (db : QuiC2Database) (recs : list (Z * float)) (id : Z)
         (f : string) (body hello : bytes)
         (lmd clmd slmd : Z) (out cout sout : list (Z * bytes))
         (server_files client_files : filesystem),
    alive_clients db = Some (registry_rows recs) ->
    queued id (cmd_pool db) = [] ->
    oldest_name (queued id (files_send db)) = None ->
    oldest_name (queued id (files_recv db)) = Some f ->
    framable f ->
    decode (encode (framed f)) = Ok (framed f) ->
    client_files f = Some body ->
    exists db' frames server',
      Server.quic_event_received encode decode now (StreamDataReceived id hello)
        (Server.mkServer db (mkQuic (value CLIENT_HELLO) lmd out) server_files)
      = Ok (Server.mkServer db'
              (mkQuic DEFAULT_MAX_DATA (value SERVER_FILE_RECV)
                 (out ++ [(id, encode (framed f))]))
              server_files)
      /\ Client.quic_event_received OS shell bytes_repr encode decode
           (StreamDataReceived id (encode (framed f)))
           (Client.mkClient (mkQuic (value SERVER_FILE_RECV) clmd cout)
              client_files)
         = Ok (Client.mkClient
                 (mkQuic (value SERVER_FILE_RECV) (value CLIENT_FILE_SEND)
                    (cout ++ frames))
                 client_files)
      /\ carries id body frames
      /\ receive_all (Server.quic_event_received encode decode later) frames
           (Server.mkServer db' (mkQuic (value CLIENT_FILE_SEND) slmd sout)
              server_files)
         = Ok server'
      /\ content (Server.files server') "temp"
         = content server_files "temp" ++ body.
Proof.
  intros OS shell bytes_repr encode decode now later db recs id f body hello
    lmd clmd slmd out cout sout server_files client_files
    Hrows Hcmds Hout Hname Hf Hcodec Hfile.
  destruct (hello_serves_inbound now db recs id f Hrows Hcmds Hout Hname)
    as (db' & Hreply & _).
  destruct (client_send_file_frames id body
              (mkQuic (value SERVER_FILE_RECV) clmd cout))
    as (frames & Hsent & Hcarries).
  destruct (server_appends encode decode later db'
              (mkQuic (value CLIENT_FILE_SEND) slmd sout) frames server_files
              eq_refl) as (fs' & Hrun & Hcontent).
  exists db', frames,
    (Server.mkServer db' (mkQuic (value CLIENT_FILE_SEND) slmd sout) fs').
  split; [|split; [|split; [exact Hcarries|split; [exact Hrun|]]]].
  - unfold Server.quic_event_received.
    cbn [Server.DB_CON Server.quic Server.files remote_max_data].
    change (int_to_enum (value CLIENT_HELLO)) with CLIENT_HELLO.
    cbn [Actions_eqb value Z.eqb Pos.eqb].
    rewrite Hreply. reflexivity.
  - unfold Client.quic_event_received.
    cbn [Client.quic Client.files remote_max_data].
    change (int_to_enum (value SERVER_FILE_RECV)) with SERVER_FILE_RECV.
    change (value SERVER_FILE_RECV =? value CLIENT_KILL) with false.
    cbn [Actions_eqb value Z.eqb Pos.eqb].
    rewrite Hcodec. cbn [bind]. rewrite (server_data_of_framed f Hf).
    cbn [bind]. unfold open_rb. rewrite Hfile.
    apply (f_equal (fun q => Ok (Client.mkClient q client_files))).
    exact Hsent.
  - destruct Hcarries as [_ <-]. exact Hcontent.
Qed.

Lemma framable_notes : framable "notes.txt".
Proof. repeat split; try discriminate; reflexivity. Defined.

Lemma upload_reaches_the_server_witness :
  let db := set_files_recv (Some [(str 12345, "notes.txt")]) (init blank) in
  let disk := fun n : string =>
    if String.eqb n "notes.txt" then Some (list_byte_of_string "abc") else None in
  let decode := fun b : bytes => Ok (string_of_list_byte b) in
  alive_clients db = Some (registry_rows []) /\
  queued 12345 (cmd_pool db) = [] /\
  oldest_name (queued 12345 (files_send db)) = None /\
  oldest_name (queued 12345 (files_recv db)) = Some "notes.txt" /\
  framable "notes.txt" /\
  decode (list_byte_of_string (framed "notes.txt")) = Ok (framed "notes.txt") /\
  disk "notes.txt" = Some (list_byte_of_string "abc") /\
  exists db' frames server',
    Server.quic_event_received list_byte_of_string decode 100%float
      (StreamDataReceived 12345 (list_byte_of_string "Hello!"))
      (Server.mkServer db (mkQuic (value CLIENT_HELLO) 0 []) (fun _ => None))
    = Ok (Server.mkServer db'
            (mkQuic DEFAULT_MAX_DATA (value SERVER_FILE_RECV)
               ([] ++ [(12345, list_byte_of_string (framed "notes.txt"))]))
            (fun _ => None))
    /\ Client.quic_event_received "Linux"
         (fun _ => ClFunctions.mkCP 0 [] []) (fun _ => "")
         list_byte_of_string decode
         (StreamDataReceived 12345 (list_byte_of_string (framed "notes.txt")))
         (Client.mkClient (mkQuic (value SERVER_FILE_RECV) 0 []) disk)
       = Ok (Client.mkClient
               (mkQuic (value SERVER_FILE_RECV) (value CLIENT_FILE_SEND)
                  ([] ++ frames))
               disk)
    /\ carries 12345 (list_byte_of_string "abc") frames
    /\ receive_all
         (Server.quic_event_received list_byte_of_string decode 101%float)
         frames
         (Server.mkServer db' (mkQuic (value CLIENT_FILE_SEND) 0 [])
            (fun _ => None))
       = Ok server'
    /\ content (Server.files server') "temp"
       = content (fun _ => None) "temp" ++ list_byte_of_string "abc".
Proof.
  intros db disk decode.
  repeat (split; [reflexivity|]).
  split; [exact framable_notes|].
  repeat (split; [reflexivity|]).
  exact (upload_reaches_the_server "Linux"
           (fun _ => ClFunctions.mkCP 0 [] []) (fun _ => "")
           list_byte_of_string decode 100%float 101%float
           db [] 12345 "notes.txt" (list_byte_of_string "abc")
           (list_byte_of_string "Hello!") 0 0 0 [] [] [] (fun _ => None) disk
           eq_refl eq_refl eq_refl eq_refl framable_notes eq_refl eq_refl).
Defined.



End FileTransferFacts.

(** ** The client's event handler *)

Module ClientHandlerFacts.
Import Py Constants SharedFunctionality ClFunctions Transport.
Import Vocabulary Scenarios TransferFacts.

Local Open Scope list_scope.

Lemma Actions_eqb_neq (a b : Actions) : a <> b -> Actions_eqb a b = false.
Proof. destruct a, b; intros H; try reflexivity; congruence. Qed.

Lemma carries_app stream_id p1 p2 f1 f2 :
  carries stream_id p1 f1 -> carries stream_id p2 f2 ->
  carries stream_id (p1 ++ p2) (f1 ++ f2).
Proof.
  intros [Ha1 Hc1] [Ha2 Hc2]. split.
  - apply Forall_app. split; assumption.
  - rewrite map_app, concat_app, Hc1, Hc2. reflexivity.
Qed.

(** The frames of a batch of responses carry the responses one after the
    other; the signal is [CLIENT_RESPONSE] as soon as there is one. *)
Lemma send_responses_frames stream_id responses : forall q,
  exists frames,
    Client.send_responses stream_id responses q
    = mkQuic (remote_max_data q)
        (match responses with
         | [] => local_max_data q
         | _ :: _ => value CLIENT_RESPONSE
         end)
        (sent q ++ frames)
    /\ carries stream_id (List.concat responses) frames.
Proof.
  induction responses as [|response responses IH]; intros q.
  - exists []. split; [|apply carries_nil].
    rewrite app_nil_r. destruct q; reflexivity.
  - unfold Client.send_responses in *. cbn [fold_left].
    destruct (send_response_frames stream_id response 0
                (set_local_max_data (value CLIENT_RESPONSE) q) (Nat.le_0_l _))
      as (frames1 & Hq1 & Hc1).
    rewrite Hq1.
    destruct (IH (mkQuic
                    (remote_max_data (set_local_max_data (value CLIENT_RESPONSE) q))
                    (local_max_data (set_local_max_data (value CLIENT_RESPONSE) q))
                    (sent (set_local_max_data (value CLIENT_RESPONSE) q) ++ frames1)))
      as (frames2 & Hq2 & Hc2).
    exists (frames1 ++ frames2). split.
    + rewrite Hq2. cbn [remote_max_data local_max_data sent set_local_max_data].
      rewrite <- app_assoc. destruct responses; reflexivity.
    + cbn [List.concat]. apply carries_app; assumption.
Qed.

Lemma server_data_of_total text :
  exists items, Client.server_data_of text = Ok items.
Proof. eexists. reflexivity. Qed.

Lemma custom_command_captured shell bytes_repr encode cmd :
  custom_command shell bytes_repr encode cmd
  = Ok (captured shell bytes_repr encode cmd).
Proof.
  unfold custom_command, captured, subprocess_run.
  destruct (returncode (shell ("powershell.exe " ++ cmd)%string) =? 0);
    reflexivity.
Qed.

Lemma custom_responses_captured shell bytes_repr encode items :
  Client.custom_responses shell bytes_repr encode items
  = Ok (map (captured shell bytes_repr encode) items).
Proof.
  induction items as [|cmd items IH]; [reflexivity|].
  cbn [Client.custom_responses map]. rewrite custom_command_captured, IH.
  reflexivity.
Qed.

(** The exceptions of [stock_command]. *)
Lemma stock_command_exn OS shell a e :
  stock_command OS shell a = Raise e ->
  e = NotImplementedError \/ exists rc err, e = CalledProcessError rc err.
Proof.
  unfold stock_command, subprocess_run.
  destruct (String.eqb (lower (name a)) "ipconfig").
  - destruct (String.eqb OS "Windows"); cbn [bind].
    + destruct (returncode _ =? 0); cbn [bind]; intros H; inversion H.
      right. eauto.
    + destruct (String.eqb OS "Linux"); cbn [bind].
      * destruct (returncode _ =? 0); cbn [bind]; intros H; inversion H.
        right. eauto.
      * intros H. inversion H. left. reflexivity.
  - cbn [bind]. destruct (returncode _ =? 0); cbn [bind]; intros H; inversion H.
    right. eauto.
Qed.

Lemma not_ipconfig (a : Actions) :
  a <> IPCONFIG -> String.eqb (lower (name a)) "ipconfig" = false.
Proof. destruct a; intros H; try reflexivity; congruence. Qed.

(** X10. For every signal that is not [CLIENT_KILL] and does not decode to
    [SERVER_FILE_SEND], [SERVER_FILE_RECV], [CUSTOM] or [IPCONFIG] (whose
    command depends on the host), the client runs the lower-cased name of
    the decoded member as a command, whatever the payload says, provided
    the payload decodes; when the shell returns status 0 it sends the
    output in frames of at most [MAX_BYTES] bytes under [CLIENT_RESPONSE].
    That includes the members that are no commands and every integer that
    decodes to no member, for which the command line is
    [powershell.exe not_a_valid_integer]. *)
Theorem client_runs_the_member_name :
  forall (OS : string) (shell : string -> CompletedProcess)
         (bytes_repr : bytes -> string) (encode : string -> bytes)
         (decode : bytes -> result string)
         (v : Z) (id : Z) (data : bytes) (text : string)
         (lmd : Z) (out : list (Z * bytes)) (fs : filesystem),
    v <> value CLIENT_KILL ->
    int_to_enum v <> SERVER_FILE_SEND ->
    int_to_enum v <> SERVER_FILE_RECV ->
    int_to_enum v <> CUSTOM ->
    int_to_enum v <> IPCONFIG ->
    decode data = Ok text ->
    returncode (shell (command_line (int_to_enum v))) = 0 ->
    exists frames,
      Client.quic_event_received OS shell bytes_repr encode decode
        (StreamDataReceived id data) (Client.mkClient (mkQuic v lmd out) fs)
      = Ok (Client.mkClient
              (mkQuic v (value CLIENT_RESPONSE) (out ++ frames)) fs)
      /\ carries id (stdout (shell (command_line (int_to_enum v)))) frames.
Proof.
  intros OS shell bytes_repr encode decode v id data text lmd out fs
    Hkill Hsend Hrecv Hcustom Hip Hdec Hrc.
  destruct (send_responses_frames id
              [stdout (shell (command_line (int_to_enum v)))]
              (mkQuic v lmd out)) as (frames & Hq & Hc).
  exists frames. split.
  - unfold Client.quic_event_received.
    cbn [Client.quic Client.files remote_max_data].
    destruct (Z.eqb_spec v (value CLIENT_KILL)) as [E|_]; [contradiction|].
    rewrite (Actions_eqb_neq _ _ Hsend), (Actions_eqb_neq _ _ Hrecv),
      (Actions_eqb_neq _ _ Hcustom), Hdec.
    cbn [bind]. destruct (server_data_of_total text) as [items ->]. cbn [bind].
    unfold stock_command, subprocess_run. rewrite (not_ipconfig _ Hip).
    cbn [bind]. unfold command_line in Hrc. rewrite Hrc. cbn [Z.eqb bind].
    apply (f_equal (fun q => Ok (Client.mkClient q fs))). exact Hq.
  - cbn [List.concat] in Hc. rewrite app_nil_r in Hc. exact Hc.
Qed.

Lemma client_runs_the_member_name_witness :
  let shell := fun args : string =>
    if String.eqb args "powershell.exe not_a_valid_integer"
    then mkCP 0 (list_byte_of_string "out") [] else mkCP 1 [] [] in
  let decode := fun b : bytes => Ok (string_of_list_byte b) in
  DEFAULT_MAX_DATA <> value CLIENT_KILL /\
  int_to_enum DEFAULT_MAX_DATA <> SERVER_FILE_SEND /\
  int_to_enum DEFAULT_MAX_DATA <> SERVER_FILE_RECV /\
  int_to_enum DEFAULT_MAX_DATA <> CUSTOM /\
  int_to_enum DEFAULT_MAX_DATA <> IPCONFIG /\
  decode (list_byte_of_string "hi") = Ok "hi" /\
  command_line (int_to_enum DEFAULT_MAX_DATA)
  = "powershell.exe not_a_valid_integer" /\
  returncode (shell (command_line (int_to_enum DEFAULT_MAX_DATA))) = 0 /\
  exists frames,
    Client.quic_event_received "Linux" shell (fun _ => "") list_byte_of_string
      decode (StreamDataReceived 4 (list_byte_of_string "hi"))
      (Client.mkClient (mkQuic DEFAULT_MAX_DATA 0 []) (fun _ => None))
    = Ok (Client.mkClient
            (mkQuic DEFAULT_MAX_DATA (value CLIENT_RESPONSE) ([] ++ frames))
            (fun _ => None))
    /\ carries 4 (stdout (shell (command_line (int_to_enum DEFAULT_MAX_DATA))))
         frames.
Proof.
  intros shell decode.
  split; [discriminate|]. split; [discriminate|]. split; [discriminate|].
  split; [discriminate|]. split; [discriminate|]. split; [reflexivity|].
  split; [reflexivity|]. split; [reflexivity|].
  apply (client_runs_the_member_name "Linux" shell (fun _ => "")
           list_byte_of_string decode DEFAULT_MAX_DATA 4
           (list_byte_of_string "hi") "hi" 0 [] (fun _ => None));
    try discriminate; reflexivity.
Defined.



(** X12. The client's handler raises [KeyboardInterrupt], which is what
    ends the client process, exactly when the signal field holds
    [CLIENT_KILL]; the check comes first, whatever the event is. *)
Theorem client_stops_only_on_kill :
  forall (OS : string) (shell : string -> CompletedProcess)
         (bytes_repr : bytes -> string) (encode : string -> bytes)
         (decode : bytes -> result string)
         (event : QuicEvent) (st : Client.state),
    (forall b e, decode b = Raise e -> e = UnicodeDecodeError) ->
    (Client.quic_event_received OS shell bytes_repr encode decode event st
     = Raise KeyboardInterrupt
     <-> remote_max_data (Client.quic st) = value CLIENT_KILL).
Proof.
  intros OS shell bytes_repr encode decode event st Hdec.
  unfold Client.quic_event_received.
  destruct (Z.eqb_spec (remote_max_data (Client.quic st)) (value CLIENT_KILL))
    as [E|E]; [tauto|].
  split; [|contradiction]. intros H. exfalso.
  destruct event as [stream_id data| |]; try discriminate H.
  destruct (Actions_eqb _ SERVER_FILE_SEND); [discriminate H|].
  destruct (decode data) as [text|e] eqn:Ed.
  2:{ apply Hdec in Ed. subst e. discriminate H. }
  cbn [bind] in H. destruct (server_data_of_total text) as [items Hitems].
  rewrite Hitems in H. cbn [bind] in H.
  destruct (Actions_eqb _ SERVER_FILE_RECV).
  - destruct items; [discriminate H|].
    destruct (open_rb (Client.files st) s); discriminate H.
  - destruct (Actions_eqb _ CUSTOM).
    + rewrite custom_responses_captured in H. discriminate H.
    + destruct (stock_command OS shell _) as [response|e] eqn:Es;
        [discriminate H|].
      cbn [bind] in H. inversion H; subst e.
      destruct (stock_command_exn _ _ _ _ Es) as [Hn|(rc & err & Hc)];
        discriminate.
Qed.

Lemma client_stops_only_on_kill_witness :
  let decode := fun b : bytes => Ok (string_of_list_byte b) in
  (forall b e, decode b = Raise e -> e = UnicodeDecodeError) /\
  (Client.quic_event_received "Linux" (fun _ => mkCP 0 [] []) (fun _ => "")
     list_byte_of_string decode OtherEvent
     (Client.mkClient (mkQuic (value CLIENT_KILL) 0 []) (fun _ => None))
   = Raise KeyboardInterrupt
   <-> remote_max_data
         (Client.quic
            (Client.mkClient (mkQuic (value CLIENT_KILL) 0 []) (fun _ => None)))
       = value CLIENT_KILL).
Proof.
  intros decode. split; [intros b e H; discriminate H|].
  apply (client_stops_only_on_kill "Linux" (fun _ => mkCP 0 [] [])
           (fun _ => "") list_byte_of_string decode OtherEvent
           (Client.mkClient (mkQuic (value CLIENT_KILL) 0 []) (fun _ => None))).
  intros b e H. discriminate H.
Defined.

End ClientHandlerFacts.

(** ** How many frames the chunking loops send *)

Module FrameCountFacts.
Import Py Constants Transport Vocabulary.

Local Open Scope list_scope.
Opaque MAX_BYTES.

Lemma send_response_count stream_id response i q :
  (i <= List.length response)%nat ->
  List.length (sent (Client.send_response stream_id response i q))
  = (List.length (sent q) + S ((List.length response - i) / MAX_BYTES))%nat.
Proof.
  funelim (Client.send_response stream_id response i q); intros Hi;
    pose proof MAX_BYTES_pos as Hpos.
  - match goal with
    | IH : _ -> _ = _ |- _ => rewrite (IH l)
    end.
    cbn [send_stream_data sent]. rewrite length_app. cbn [List.length].
    replace (List.length response - i)%nat
      with (List.length response - (i + MAX_BYTES) + 1 * MAX_BYTES)%nat by lia.
    rewrite Nat.div_add by lia. lia.
  - cbn [send_stream_data sent]. rewrite length_app. cbn [List.length].
    rewrite Nat.div_small by lia. lia.
Qed.

Lemma server_send_file_nonempty stream_id f q :
  exists frames,
    sent (Server.send_file stream_id f q) = sent q ++ frames
    /\ Forall (fun fr => snd fr <> []) frames.
Proof.
  funelim (Server.send_file stream_id f q).
  - exists []. split; [rewrite app_nil_r; reflexivity|constructor].
  - match goal with
    | IH : ex _ |- _ => destruct IH as (frames & Hsent & Hall)
    end.
    exists ((stream_id, b :: file_data) :: frames). split.
    + rewrite Hsent. cbn [send_stream_data sent]. rewrite <- app_assoc.
      reflexivity.
    + constructor; [discriminate|exact Hall].
Qed.

Lemma client_send_file_nonempty stream_id f q :
  exists frames,
    sent (Client.send_file stream_id f q) = sent q ++ frames
    /\ Forall (fun fr => snd fr <> []) frames.
Proof.
  funelim (Client.send_file stream_id f q).
  - exists []. split; [rewrite app_nil_r; reflexivity|constructor].
  - match goal with
    | IH : ex _ |- _ => destruct IH as (frames & Hsent & Hall)
    end.
    exists ((stream_id, b :: file_data) :: frames). split.
    + rewrite Hsent. cbn [send_stream_data set_local_max_data sent].
      rewrite <- app_assoc. reflexivity.
    + constructor; [discriminate|exact Hall].
Qed.

Lemma frames_since_sent q q' frames :
  sent q' = sent q ++ frames -> frames_since q q' = frames.
Proof.
  intros H. unfold frames_since. rewrite H, skipn_app, Nat.sub_diag, skipn_all.
  reflexivity.
Qed.

(** X13. The response loop sends one frame more than the response has
    full chunks: [len / MAX_BYTES + 1] frames, so one empty frame for an
    empty response and an empty last frame behind a response whose length
    is a multiple of [MAX_BYTES].  The two file loops never send an empty
    frame. *)
Theorem frames_per_payload :
  forall (stream_id : Z) (payload : bytes) (q : QuicConnection),
    List.length (frames_since q (Client.send_response stream_id payload 0 q))
    = S (List.length payload / MAX_BYTES) /\
    Forall (fun fr => snd fr <> [])
      (frames_since q (Client.send_file stream_id payload q)) /\
    Forall (fun fr => snd fr <> [])
      (frames_since q (Server.send_file stream_id payload q)).
Proof.
  intros stream_id payload q. split; [|split].
  - unfold frames_since. rewrite length_skipn.
    rewrite (send_response_count stream_id payload 0 q (Nat.le_0_l _)).
    rewrite Nat.sub_0_r. lia.
  - destruct (client_send_file_nonempty stream_id payload q)
      as (frames & Hsent & Hall).
    rewrite (frames_since_sent _ _ _ Hsent). exact Hall.
  - destruct (server_send_file_nonempty stream_id payload q)
      as (frames & Hsent & Hall).
    rewrite (frames_since_sent _ _ _ Hsent). exact Hall.
Qed.

Transparent MAX_BYTES.

End FrameCountFacts.

(** ** The session tickets and the periodic task of the server *)

Module ServerProcessFacts.
Import Py Constants Dealer Transport Vocabulary ServerProcess.

Local Open Scope list_scope.

Lemma bytes_eqb_refl (a : bytes) : bytes_eqb a a = true.
Proof.
  unfold bytes_eqb. destruct (list_eq_dec Byte.byte_eq_dec a a);
    [reflexivity|contradiction].
Qed.

Lemma bytes_eqb_neq (a b : bytes) : a <> b -> bytes_eqb a b = false.
Proof.
  intros H. unfold bytes_eqb. destruct (list_eq_dec Byte.byte_eq_dec a b);
    [contradiction|reflexivity].
Qed.

(** X14. A session ticket that was added is handed out by the first [pop]
    of its label and by no later one, whatever was added before it, also
    under the same label; adding and popping it changes nothing for any
    other label. *)
Theorem ticket_is_handed_out_once :
  forall (Body : Type) (t old : SessionTicket Body)
         (store : SessionTicketStore Body) (label : bytes),
    label <> ticket Body t ->
    snd (pop Body (ticket Body t) (add Body t (add Body old store))) = Some t /\
    snd (pop Body (ticket Body t)
           (fst (pop Body (ticket Body t) (add Body t (add Body old store)))))
    = None /\
    snd (pop Body label (add Body t store)) = store label /\
    snd (pop Body label (fst (pop Body (ticket Body t) (add Body t store))))
    = store label.
Proof.
  intros Body t old store label Hne.
  unfold pop, add. cbn [fst snd].
  rewrite !bytes_eqb_refl, !(bytes_eqb_neq _ _ Hne). repeat split.
Qed.

Lemma ticket_is_handed_out_once_witness :
  let t := mkTicket nat (list_byte_of_string "k1") 2%nat in
  let old := mkTicket nat (list_byte_of_string "k1") 1%nat in
  let label := list_byte_of_string "k2" in
  let store := new_store nat in
  label <> ticket nat t /\
  snd (pop nat (ticket nat t) (add nat t (add nat old store))) = Some t /\
  snd (pop nat (ticket nat t)
         (fst (pop nat (ticket nat t) (add nat t (add nat old store)))))
  = None /\
  snd (pop nat label (add nat t store)) = store label /\
  snd (pop nat label (fst (pop nat (ticket nat t) (add nat t store))))
  = store label.
Proof.
  intros t old label store.
  split; [discriminate|].
  apply (ticket_is_handed_out_once nat t old store label). discriminate.
Defined.

(** X15. The periodic task [db_ops] asks for its next run, five seconds
    later, only after the sweep has returned: on a registry that is empty
    or cannot be read it leaves the database alone and re-arms the timer,
    but on a registry with at least one row the sweep raises and no
    further run is asked for. *)
Theorem db_ops_rearms_only_when_idle :
  forall (now : float) (timers : list Z) (row : string * float)
         (rows : list (string * float)) (c s r : table string),
    (exists e, db_ops now (mkDB (Some (row :: rows)) c s r) timers = Raise e) /\
    db_ops now (mkDB (Some []) c s r) timers
    = Ok (mkDB (Some []) c s r, timers ++ [5]) /\
    db_ops now (mkDB None c s r) timers = Ok (mkDB None c s r, timers ++ [5]).
Proof.
  intros now timers row rows c s r. split; [|split; reflexivity].
  unfold db_ops, clean_stagnant, sel_all_alive. cbn [alive_clients map List.length
    Nat.eqb negb andb clean_stagnant_loop]. unfold getitem.
  destruct (String.get 1 (fst row)); eexists; reflexivity.
Qed.

End ServerProcessFacts.

(** ** The operator console *)

Module ConsoleFacts.
Import Py Constants SharedFunctionality Dealer Transport.
Import Vocabulary Scenarios DealerConsole PyFacts.

Local Open Scope list_scope.









End ConsoleFacts.

(** ** A command from the console to the client *)

Module CommandPathFacts.
Import Py Constants SharedFunctionality Dealer ServerComms Transport.
Import Vocabulary Scenarios DealerConsole.
Import PyFacts DealerFacts ServerCommsFacts TransferFacts ServerHandlerFacts.
Import FileTransferFacts ClientHandlerFacts.

Local Open Scope list_scope.

(** The server's answer to the hello of a client with pending commands:
    the batch goes through [dispatch]. *)
Lemma hello_dispatches encode decode now db recs rows id cmd cmds hello
  lmd out fs :
  alive_clients db = Some (registry_rows recs) ->
  cmd_pool db = Some rows ->
  map snd (select_where (str id) rows) = cmd :: cmds ->
  Server.quic_event_received encode decode now (StreamDataReceived id hello)
    (Server.mkServer db (mkQuic (value CLIENT_HELLO) lmd out) fs)
  = Ok (Server.mkServer
          (set_cmd_pool (Some (delete_where (str id) rows))
             (set_alive_clients
                (Some (registry_rows (registered id now recs))) db))
          (Server.dispatch encode id (cmd :: cmds)
             (mkQuic (value CLIENT_HELLO) lmd out))
          fs).
Proof.
  intros Hrows Hpool Hsel.
  unfold Server.quic_event_received.
  cbn [Server.DB_CON Server.quic Server.files remote_max_data].
  change (int_to_enum (value CLIENT_HELLO)) with CLIENT_HELLO.
  cbn [Actions_eqb value Z.eqb Pos.eqb]. unfold respond_to_sdr.
  rewrite (register_on_hello db recs id now Hrows). cbn [bind].
  rewrite (sel_and_del_cmd_rows id _ rows) by exact Hpool. rewrite Hsel.
  reflexivity.
Qed.


(** What [dispatch] does with one item, by the kind of the item. *)
Lemma dispatch_stock encode id (a : Actions) q :
  a <> NOT_A_VALID_INTEGER ->
  Server.dispatch encode id [str (value a)] q
  = send_stream_data id (list_byte_of_string "***")
      (set_local_max_data (value a) q).
Proof.
  intros Ha. cbn [Server.dispatch].
  rewrite int_str, ClFunctionsFacts.int_to_enum_value, (Actions_eqb_neq _ _ Ha).
  reflexivity.
Qed.



(** The turns of the console that the path of a command goes through. *)
Lemma step_si files answer st :
  step files "si" answer st
  = Ok (mkConsole (db st) (fst (sel_all_alive (db st))) (chosen st)
          (continue_ st)).
Proof.
  change (step files "si" answer st)
    with (let '(clients, error) := sel_all_alive (db st) in
          Ok (mkConsole (db st) clients (chosen st) (continue_ st))).
  destruct (sel_all_alive (db st)); reflexivity.
Qed.

Lemma step_cc files answer st :
  step files "cc" answer st
  = match int answer with
    | Raise _ => Ok st
    | Ok cl_num =>
        if (0 <=? cl_num) && (cl_num <? Z.of_nat (List.length (clients st)))
        then
          client <- nth_client (clients st) cl_num ;;
          chosen <- int client ;;
          Ok (mkConsole (db st) (clients st) chosen (continue_ st))
        else Ok st
    end.
Proof. reflexivity. Qed.

Lemma step_nc files answer st :
  step files "nc" answer st
  = if chosen st =? -1 then Ok st
    else
      db <- insert_new_cmd (chosen st) (db_cmd_of answer) (db st) ;;
      Ok (mkConsole db (clients st) (chosen st) (continue_ st)).
Proof. reflexivity. Qed.

Lemma menu_codes digit a :
  In (digit, a) menu ->
  db_cmd_of digit = str (value a) /\ a <> NOT_A_VALID_INTEGER.
Proof.
  intros [H|[H|[H|[H|[H|[]]]]]]; inversion H; subst;
    (split; [reflexivity|discriminate]).
Qed.

(** The turns [si], [cc k], [nc answer] on a console at start. *)
Lemma choose_and_enqueue files file recs k id answer rows :
  nth_error (map fst recs) k = Some id ->
  id <> -1 ->
  cmd_pool (init file) = Some rows ->
  run files [("si", ""); ("cc", str (Z.of_nat k)); ("nc", answer)]
    (start (set_alive_clients (Some (registry_rows recs)) (init file)))
  = Ok (mkConsole
          (set_cmd_pool (Some (rows ++ [(str id, db_cmd_of answer)]))
             (set_alive_clients (Some (registry_rows recs)) (init file)))
          (map str (map fst recs)) id true).
Proof.
  intros Hnth Hid Hpool.
  assert (Hlisting :
    map (fun row : string * float => fst row) (registry_rows recs)
    = map str (map fst recs)).
  { unfold registry_rows. rewrite !map_map. reflexivity. }
  unfold start. cbn [run continue_ fst snd].
  rewrite step_si. cbn [bind continue_ db clients chosen].
  unfold sel_all_alive. cbn [alive_clients set_alive_clients fst].
  rewrite Hlisting, step_cc, int_str. cbn [clients].
  assert (Hlt : (k < List.length (map str (map fst recs)))%nat).
  { rewrite length_map. apply nth_error_Some. congruence. }
  replace ((0 <=? Z.of_nat k)
           && (Z.of_nat k <? Z.of_nat (List.length (map str (map fst recs)))))
    with true
    by (symmetry; apply andb_true_iff; split;
        [apply Z.leb_le|apply Z.ltb_lt]; lia).
  unfold nth_client. rewrite Nat2Z.id, (map_nth_error str _ _ Hnth).
  cbn [bind]. rewrite int_str. cbn [bind continue_ db clients chosen].
  rewrite step_nc. cbn [chosen db clients continue_].
  destruct (Z.eqb_spec id (-1)) as [E|_]; [contradiction|].
  unfold insert_new_cmd. cbn [cmd_pool set_alive_clients]. rewrite Hpool.
  reflexivity.
Qed.

(** X18. From the menu to the signal.  When the operator lists the
    clients, chooses the [k]-th one and picks a digit of the command menu,
    the server answers the next hello of that client by arming the signal
    of the stock action the digit stands for and sending the payload
    [b'***']; the command is then gone from the queue. *)
Theorem menu_choice_becomes_the_signal :
  forall (files : filesystem) (encode : string -> bytes)
         (decode : bytes -> result string) (now : float)
         (file : QuiC2Database) (recs : list (Z * float)) (k : nat) (id : Z)
         (digit : string) (a : Actions) (hello : bytes)
         (lmd : Z) (out : list (Z * bytes)) (server_files : filesystem),
    nth_error (map fst recs) k = Some id ->
    id <> -1 ->
    In (digit, a) menu ->
    queued id (cmd_pool (init file)) = [] ->
    exists st' db',
      run files [("si", ""); ("cc", str (Z.of_nat k)); ("nc", digit)]
        (start (set_alive_clients (Some (registry_rows recs)) (init file)))
      = Ok st' /\
      chosen st' = id /\
      Server.quic_event_received encode decode now (StreamDataReceived id hello)
        (Server.mkServer (db st') (mkQuic (value CLIENT_HELLO) lmd out)
           server_files)
      = Ok (Server.mkServer db'
              (mkQuic (value CLIENT_HELLO) (value a)
                 (out ++ [(id, list_byte_of_string "***")]))
              server_files) /\
      queued id (cmd_pool db') = [].
Proof.
  intros files encode decode now file recs k id digit a hello lmd out
    server_files Hnth Hid Hmenu Hempty.
  destruct (init_cmd_pool file) as [rows Hpool].
  destruct (menu_codes digit a Hmenu) as [Hcode Ha].
  rewrite Hpool in Hempty. cbn [queued] in Hempty.
  eexists. eexists. split; [|split; [|split]].
  - apply (choose_and_enqueue files file recs k id digit rows Hnth Hid Hpool).
  - reflexivity.
  - cbn [db]. rewrite Hcode.
    rewrite (hello_dispatches encode decode now _ recs
               (rows ++ [(str id, str (value a))]) id (str (value a)) []);
      [|reflexivity|reflexivity|].
    + rewrite (dispatch_stock encode id a _ Ha). reflexivity.
    + rewrite select_where_app, map_app, Hempty. unfold select_where.
      cbn [filter fst]. rewrite String.eqb_refl. reflexivity.
  - cbn [cmd_pool set_cmd_pool]. rewrite queued_after_delete, Z.eqb_refl.
    reflexivity.
Qed.

Lemma menu_choice_becomes_the_signal_witness :
  let recs := [(8, 100%float); (12345, 101%float)] in
  nth_error (map fst recs) 1 = Some 12345 /\
  12345 <> -1 /\
  In ("3", LS) menu /\
  queued 12345 (cmd_pool (init blank)) = [] /\
  exists st' db',
    run (fun _ => None) [("si", ""); ("cc", str (Z.of_nat 1)); ("nc", "3")]
      (start (set_alive_clients (Some (registry_rows recs)) (init blank)))
    = Ok st' /\
    chosen st' = 12345 /\
    Server.quic_event_received list_byte_of_string
      (fun b => Ok (string_of_list_byte b)) 200%float
      (StreamDataReceived 12345 (list_byte_of_string "Hello!"))
      (Server.mkServer (db st') (mkQuic (value CLIENT_HELLO) 0 [])
         (fun _ => None))
    = Ok (Server.mkServer db'
            (mkQuic (value CLIENT_HELLO) (value LS)
               ([] ++ [(12345, list_byte_of_string "***")]))
            (fun _ => None)) /\
    queued 12345 (cmd_pool db') = [].
Proof.
  intros recs.
  split; [reflexivity|]. split; [discriminate|].
  split; [simpl; tauto|]. split; [reflexivity|].
  apply (menu_choice_becomes_the_signal (fun _ => None) list_byte_of_string
           (fun b => Ok (string_of_list_byte b)) 200%float blank recs 1 12345
           "3" LS (list_byte_of_string "Hello!") 0 [] (fun _ => None)).
  - reflexivity.
  - discriminate.
  - simpl. tauto.
  - reflexivity.
Defined.






End CommandPathFacts.

(** ** Outbound files from the console to the server's disk *)

Module OutboundFileFacts.
Import Py Constants SharedFunctionality Dealer ServerComms Transport.
Import Vocabulary Scenarios DealerConsole.
Import PyFacts DealerFacts ServerCommsFacts ServerHandlerFacts FileTransferFacts.

Local Open Scope list_scope.

(** One turn leaves the outbound queue alone or appends the stripped
    answer, the name of a file that the console's disk holds. *)
Lemma step_outbound files line answer st st' :
  step files line answer st = Ok st' ->
  files_send (db st') = files_send (db st) \/
  exists rows body,
    files_send (db st) = Some rows /\
    files (strip answer) = Some body /\
    files_send (db st')
    = Some (rows ++ [(str (chosen st), strip answer)]).
Proof.
  unfold step.
  destruct (String.eqb (strip line) "h" || String.eqb (strip line) "help");
    [intros H; inversion H; left; reflexivity|].
  destruct (String.eqb (strip line) "e" || String.eqb (strip line) "exit");
    [intros H; inversion H; left; reflexivity|].
  destruct (String.eqb (strip line) "si").
  { destruct (sel_all_alive (db st)). intros H; inversion H. left; reflexivity. }
  destruct (String.eqb (strip line) "cc").
  { destruct (int answer) as [cl_num|e];
      [|intros H; inversion H; left; reflexivity].
    destruct ((0 <=? cl_num) && (cl_num <? Z.of_nat (List.length (clients st))));
      [|intros H; inversion H; left; reflexivity].
    destruct (nth_client (clients st) cl_num) as [client|e]; [|discriminate].
    cbn [bind]. destruct (int client) as [n|e]; [|discriminate].
    intros H; inversion H. left; reflexivity. }
  destruct (String.eqb (strip line) "nc").
  { destruct (chosen st =? -1); [intros H; inversion H; left; reflexivity|].
    unfold insert_new_cmd. destruct (cmd_pool (db st)); [|discriminate].
    intros H; inversion H. left; reflexivity. }
  destruct (String.eqb (strip line) "sc").
  { destruct (chosen st =? -1); [intros H; inversion H; left; reflexivity|].
    unfold open_rb.
    destruct (files (strip answer)) as [body|] eqn:Hfile;
      [|intros H; inversion H; left; reflexivity].
    unfold insert_new_file_send.
    destruct (files_send (db st)) as [rows|]; [|discriminate].
    intros H; inversion H. right. exists rows, body. repeat split. }
  destruct (String.eqb (strip line) "cs").
  { destruct (chosen st =? -1); [intros H; inversion H; left; reflexivity|].
    unfold insert_new_file_recv. destruct (files_recv (db st)); [|discriminate].
    intros H; inversion H. left; reflexivity. }
  intros H; inversion H. left; reflexivity.
Qed.

Lemma run_outbound files script : forall st st',
  run files script st = Ok st' ->
  forall id name,
    In name (queued id (files_send (db st'))) ->
    In name (queued id (files_send (db st)))
    \/ exists body, files name = Some body.
Proof.
  induction script as [|turn script IH]; intros st st' Hrun id name Hin.
  - inversion Hrun; subst. left. exact Hin.
  - cbn [run] in Hrun. destruct (continue_ st);
      [|inversion Hrun; subst; left; exact Hin].
    destruct (step files (fst turn) (snd turn) st) as [st1|e] eqn:Hstep;
      [|discriminate].
    cbn [bind] in Hrun.
    destruct (IH st1 st' Hrun id name Hin) as [Hin1|Hdisk];
      [|right; exact Hdisk].
    destruct (step_outbound files _ _ _ _ Hstep)
      as [Hsame|(rows & body & Hrows & Hfile & Hrows1)].
    + left. rewrite <- Hsame. exact Hin1.
    + rewrite Hrows1 in Hin1. rewrite Hrows. cbn [queued] in Hin1 |- *.
      rewrite select_where_app, map_app in Hin1.
      apply in_app_or in Hin1. destruct Hin1 as [Hold|Hnew];
        [left; exact Hold|].
      right. exists body. unfold select_where in Hnew. cbn [filter fst] in Hnew.
      destruct (String.eqb (str (chosen st)) (str id)); [|destruct Hnew].
      destruct Hnew as [<-|[]]. exact Hfile.
Qed.

(** X21. The console's check of outbound files.  Whatever the operator
    types, every name that a session of the console leaves in a client's
    outbound queue was in that queue before the session or is the name of
    a file on the console's disk: the [sc] command stores no name that it
    could not open. *)
Theorem console_queues_only_files_it_opened :
  forall (files : filesystem) (script : list (string * string))
         (db0 : QuiC2Database) (st' : state) (id : Z) (name : string),
    run files script (start db0) = Ok st' ->
    In name (queued id (files_send (db st'))) ->
    In name (queued id (files_send db0))
    \/ exists body, files name = Some body.
Proof.
  intros files script db0 st' id name Hrun Hin.
  exact (run_outbound files script (start db0) st' Hrun id name Hin).
Qed.

Lemma console_queues_only_files_it_opened_witness :
  let disk := fun n : string =>
    if String.eqb n "a.txt" then Some (list_byte_of_string "abc") else None in
  let db0 := set_alive_clients (Some (registry_rows [(8, 100%float)]))
               (init blank) in
  let script := [("si", ""); ("cc", "0"); ("sc", "nothing.txt");
                 ("sc", " a.txt ")] in
  let st' := mkConsole
               (set_files_send (Some [(str 8, "a.txt")]) db0) [str 8] 8 true in
  run disk script (start db0) = Ok st' /\
  In "a.txt" (queued 8 (files_send (db st'))) /\
  (In "a.txt" (queued 8 (files_send db0))
   \/ exists body, disk "a.txt" = Some body).
Proof.
  intros disk db0 script st'.
  assert (Hrun : run disk script (start db0) = Ok st') by reflexivity.
  assert (Hin : In "a.txt" (queued 8 (files_send (db st'))))
    by (left; reflexivity).
  split; [exact Hrun|]. split; [exact Hin|].
  exact (console_queues_only_files_it_opened disk script db0 st' 8 "a.txt"
           Hrun Hin).
Defined.



End OutboundFileFacts.
